(** * The Function App resource adapter (azurerm/resource_arm_function_app.go)

    A shallow embedding of the four lifecycle operations of the resource
    (Create, Read, Update, Delete) and of the expand/flatten helpers they
    use.  Go pointers are [option]s, Go maps are [gmap]s, the remote
    management client is a record of functions over an abstract remote
    world, and every operation returns, next to its result, the sequence of
    remote calls it issued. *)

From Stdlib Require Import ZArith.
From stdpp Require Import base option list strings gmap fin_maps.

Set Default Proof Using "Type".
Set Warnings "-clear-no-such-hyp".
Open Scope string_scope.
Open Scope list_scope.

(** ** Errors

    A Go [error] is either a value handed over by a collaborator (the SDK
    client, the resource-id parser, the schema writer) or one built in this
    file by [fmt.Errorf]; the latter keeps its format string and operands. *)

Inductive error : Type :=
| ForeignError (msg : string)
| Errorf (format : string) (args : list fmt_arg)
with fmt_arg : Type :=
| ArgString (s : string)
| ArgError (e : error).

(** What a Go function call can end in: a value, a returned error, or a
    run-time panic (nil pointer dereference). *)
Inductive Result (A : Type) : Type :=
| Ok (a : A)
| Err (e : error)
| Panic.
Arguments Ok {A} a.
Arguments Err {A} e.
Arguments Panic {A}.

(** ** The SDK's payload types (package web, 2016-09-01) *)

Record NameValuePair := {
  Name : option string;
  Value : option string
}.

Record SiteConfig := {
  AppSettings : option (list NameValuePair);
  AlwaysOn : option bool;
  Use32BitWorkerProcess : option bool;
  WebSocketsEnabled : option bool
}.

Record ConnStringValueTypePair := {
  pairValue : option string;
  pairType : string
}.

(** [autorest.Response] embeds a [*http.Response]. *)
Record Response := {
  StatusCode : option Z
}.

Record SiteProperties := {
  ServerFarmID : option string;
  Enabled : option bool;
  DefaultHostName : option string;
  HTTPSOnly : option bool;
  OutboundIPAddresses : option string;
  ClientAffinityEnabled : option bool;
  propsSiteConfig : option SiteConfig
}.

Record Site := {
  siteResponse : Response;
  ID : option string;
  Kind : option string;
  Location : option string;
  Tags : gmap string (option string);
  siteProperties : option SiteProperties
}.

Record ResourceNameAvailabilityRequest := {
  reqName : option string;
  reqType : string
}.

Record ResourceNameAvailability := {
  NameAvailable : option bool;
  Message : option string
}.

(** ** The declared configuration (schema.ResourceData) *)

(** One [connection_string] block: the three required attributes. *)
Record ConnectionStringBlock := {
  cs_name : string;
  cs_type : string;
  cs_value : string
}.

(** One [site_config] block: a map in which each key may be missing. *)
Record SiteConfigBlock := {
  always_on : option bool;
  use_32_bit_worker_process : option bool;
  websockets_enabled : option bool
}.

Record Config := {
  name : string;
  resource_group_name : string;
  location : string;
  app_service_plan_id : string;
  enabled : bool;
  version : string;
  storage_connection_string : string;
  app_settings : gmap string string;
  connection_string : list ConnectionStringBlock;
  tags : gmap string string;
  default_hostname : string;
  outbound_ip_addresses : string;
  client_affinity_enabled : bool;
  https_only : bool;
  site_config : list SiteConfigBlock
}.

(** [prior] is the state the apply started from, [current] what [d.Get]
    answers; [d.HasChange k] compares the two at attribute [k]. *)
Record ResourceData := {
  Id : string;
  prior : Config;
  current : Config
}.

#[global] Instance ConnectionStringBlock_eq_dec : EqDecision ConnectionStringBlock.
Proof. solve_decision. Defined.
#[global] Instance SiteConfigBlock_eq_dec : EqDecision SiteConfigBlock.
Proof. solve_decision. Defined.
#[global] Instance ConnStringValueTypePair_eq_dec : EqDecision ConnStringValueTypePair.
Proof. solve_decision. Defined.

Definition HasChange {A} `{EqDecision A} (attr : Config → A) (d : ResourceData) : bool :=
  negb (bool_decide (attr (prior d) = attr (current d))).

Definition SetId (v : string) (d : ResourceData) : ResourceData :=
  {| Id := v; prior := prior d; current := current d |}.

Definition with_current (f : Config → Config) (d : ResourceData) : ResourceData :=
  {| Id := Id d; prior := prior d; current := f (current d) |}.

(** [m[k]] on a Go map of strings: the zero value when the key is missing. *)
Definition at_key (m : gmap string string) (k : string) : string := default "" (m !! k).

(** A Go string-pointer argument of [d.Set]: nil stores the zero value. *)
Definition deref_or {A} (zero : A) (p : option A) : A := default zero p.

(** ** The implicit application settings *)

Definition dashboardPropName := "AzureWebJobsDashboard".
Definition storagePropName := "AzureWebJobsStorage".
Definition functionVersionPropName := "FUNCTIONS_EXTENSION_VERSION".
Definition contentSharePropName := "WEBSITE_CONTENTSHARE".
Definition contentFileConnStringPropName := "WEBSITE_CONTENTAZUREFILECONNECTIONSTRING".

Definition implicit_keys : list string :=
  [dashboardPropName; storagePropName; functionVersionPropName;
   contentSharePropName; contentFileConnStringPropName].

Definition getBasicFunctionAppAppSettings (d : ResourceData) : list NameValuePair :=
  let storageConnection := storage_connection_string (current d) in
  let functionVersion := version (current d) in
  let contentShare := name (current d) +:+ "-content" in
  [ {| Name := Some dashboardPropName; Value := Some storageConnection |};
    {| Name := Some storagePropName; Value := Some storageConnection |};
    {| Name := Some functionVersionPropName; Value := Some functionVersion |};
    {| Name := Some contentSharePropName; Value := Some contentShare |};
    {| Name := Some contentFileConnStringPropName; Value := Some storageConnection |} ].

(** The loop [for _, p := range basicAppSettings { output[*p.Name] = p.Value }]:
    the key is read through a pointer. *)
Fixpoint assign_pairs (ps : list NameValuePair) (output : gmap string (option string))
  : Result (gmap string (option string)) :=
  match ps with
  | [] => Ok output
  | p :: ps' =>
      match Name p with
      | None => Panic
      | Some k => assign_pairs ps' (<[k := Value p]> output)
      end
  end.

(** ** Site configuration *)

Definition emptySiteConfig : SiteConfig :=
  {| AppSettings := None; AlwaysOn := None;
     Use32BitWorkerProcess := None; WebSocketsEnabled := None |}.

Definition expandFunctionAppSiteConfig (d : ResourceData) : SiteConfig :=
  match site_config (current d) with
  | [] => emptySiteConfig
  | config :: _ =>
      {| AppSettings := None;
         AlwaysOn := always_on config;
         Use32BitWorkerProcess := use_32_bit_worker_process config;
         WebSocketsEnabled := websockets_enabled config |}
  end.

Definition flattenFunctionAppSiteConfig (input : option SiteConfig) : list SiteConfigBlock :=
  match input with
  | None => []
  | Some input =>
      [ {| always_on := AlwaysOn input;
           use_32_bit_worker_process := Use32BitWorkerProcess input;
           websockets_enabled := WebSocketsEnabled input |} ]
  end.

(** ** Connection strings *)

Definition expandFunctionAppConnectionStrings (d : ResourceData)
  : gmap string (option ConnStringValueTypePair) :=
  foldl (λ output v,
           <[cs_name v := Some {| pairValue := Some (cs_value v);
                                  pairType := cs_type v |}]> output)
        ∅ (connection_string (current d)).

(** The map entry the loop of expandFunctionAppConnectionStrings writes for
    one block. *)
Definition connectionStringEntry (v : ConnectionStringBlock)
  : string * option ConnStringValueTypePair :=
  (cs_name v, Some {| pairValue := Some (cs_value v); pairType := cs_type v |}).

(** The body of the loop of flattenFunctionAppConnectionStrings at one
    key/value of the map: [v.Type] and [*v.Value] are read through
    pointers. *)
Definition flatten_entry (kv : string * option ConnStringValueTypePair)
  : Result ConnectionStringBlock :=
  match kv.2 with
  | None => Panic
  | Some v =>
      match pairValue v with
      | None => Panic
      | Some value => Ok {| cs_name := kv.1; cs_type := pairType v; cs_value := value |}
      end
  end.

(** The loop run over the entries in the order [range] delivers them. *)
Fixpoint flatten_entries (kvs : list (string * option ConnStringValueTypePair))
  (results : list ConnectionStringBlock) : Result (list ConnectionStringBlock) :=
  match kvs with
  | [] => Ok results
  | kv :: kvs' =>
      match flatten_entry kv with
      | Ok result => flatten_entries kvs' (results ++ [result])
      | Err e => Err e
      | Panic => Panic
      end
  end.

(** Go leaves the order of [range] over a map unspecified; [map_to_list]
    fixes one order, and what is stated of the result is stated for every
    order (see [flatten_entries]). *)
Definition flattenFunctionAppConnectionStrings
  (input : gmap string (option ConnStringValueTypePair)) : Result (list ConnectionStringBlock) :=
  flatten_entries (map_to_list input) [].

(** ** Attribute writers for [d.Set] *)

Definition set_name (v : string) (c : Config) : Config :=
  Build_Config v (resource_group_name c) (location c) (app_service_plan_id c)
    (enabled c) (version c) (storage_connection_string c) (app_settings c)
    (connection_string c) (tags c) (default_hostname c) (outbound_ip_addresses c)
    (client_affinity_enabled c) (https_only c) (site_config c).

Definition set_resource_group_name (v : string) (c : Config) : Config :=
  Build_Config (name c) v (location c) (app_service_plan_id c) (enabled c) (version c)
    (storage_connection_string c) (app_settings c) (connection_string c) (tags c)
    (default_hostname c) (outbound_ip_addresses c) (client_affinity_enabled c)
    (https_only c) (site_config c).

Definition set_location (v : string) (c : Config) : Config :=
  Build_Config (name c) (resource_group_name c) v (app_service_plan_id c) (enabled c)
    (version c) (storage_connection_string c) (app_settings c) (connection_string c)
    (tags c) (default_hostname c) (outbound_ip_addresses c) (client_affinity_enabled c)
    (https_only c) (site_config c).

Definition set_app_service_plan_id (v : string) (c : Config) : Config :=
  Build_Config (name c) (resource_group_name c) (location c) v (enabled c) (version c)
    (storage_connection_string c) (app_settings c) (connection_string c) (tags c)
    (default_hostname c) (outbound_ip_addresses c) (client_affinity_enabled c)
    (https_only c) (site_config c).

Definition set_enabled (v : bool) (c : Config) : Config :=
  Build_Config (name c) (resource_group_name c) (location c) (app_service_plan_id c) v
    (version c) (storage_connection_string c) (app_settings c) (connection_string c)
    (tags c) (default_hostname c) (outbound_ip_addresses c) (client_affinity_enabled c)
    (https_only c) (site_config c).

Definition set_version (v : string) (c : Config) : Config :=
  Build_Config (name c) (resource_group_name c) (location c) (app_service_plan_id c)
    (enabled c) v (storage_connection_string c) (app_settings c) (connection_string c)
    (tags c) (default_hostname c) (outbound_ip_addresses c) (client_affinity_enabled c)
    (https_only c) (site_config c).

Definition set_storage_connection_string (v : string) (c : Config) : Config :=
  Build_Config (name c) (resource_group_name c) (location c) (app_service_plan_id c)
    (enabled c) (version c) v (app_settings c) (connection_string c) (tags c)
    (default_hostname c) (outbound_ip_addresses c) (client_affinity_enabled c)
    (https_only c) (site_config c).

Definition set_app_settings (v : gmap string string) (c : Config) : Config :=
  Build_Config (name c) (resource_group_name c) (location c) (app_service_plan_id c)
    (enabled c) (version c) (storage_connection_string c) v (connection_string c)
    (tags c) (default_hostname c) (outbound_ip_addresses c) (client_affinity_enabled c)
    (https_only c) (site_config c).

Definition set_connection_string (v : list ConnectionStringBlock) (c : Config) : Config :=
  Build_Config (name c) (resource_group_name c) (location c) (app_service_plan_id c)
    (enabled c) (version c) (storage_connection_string c) (app_settings c) v (tags c)
    (default_hostname c) (outbound_ip_addresses c) (client_affinity_enabled c)
    (https_only c) (site_config c).

Definition set_tags (v : gmap string string) (c : Config) : Config :=
  Build_Config (name c) (resource_group_name c) (location c) (app_service_plan_id c)
    (enabled c) (version c) (storage_connection_string c) (app_settings c)
    (connection_string c) v (default_hostname c) (outbound_ip_addresses c)
    (client_affinity_enabled c) (https_only c) (site_config c).

Definition set_default_hostname (v : string) (c : Config) : Config :=
  Build_Config (name c) (resource_group_name c) (location c) (app_service_plan_id c)
    (enabled c) (version c) (storage_connection_string c) (app_settings c)
    (connection_string c) (tags c) v (outbound_ip_addresses c)
    (client_affinity_enabled c) (https_only c) (site_config c).

Definition set_outbound_ip_addresses (v : string) (c : Config) : Config :=
  Build_Config (name c) (resource_group_name c) (location c) (app_service_plan_id c)
    (enabled c) (version c) (storage_connection_string c) (app_settings c)
    (connection_string c) (tags c) (default_hostname c) v (client_affinity_enabled c)
    (https_only c) (site_config c).

Definition set_client_affinity_enabled (v : bool) (c : Config) : Config :=
  Build_Config (name c) (resource_group_name c) (location c) (app_service_plan_id c)
    (enabled c) (version c) (storage_connection_string c) (app_settings c)
    (connection_string c) (tags c) (default_hostname c) (outbound_ip_addresses c) v
    (https_only c) (site_config c).

Definition set_https_only (v : bool) (c : Config) : Config :=
  Build_Config (name c) (resource_group_name c) (location c) (app_service_plan_id c)
    (enabled c) (version c) (storage_connection_string c) (app_settings c)
    (connection_string c) (tags c) (default_hostname c) (outbound_ip_addresses c)
    (client_affinity_enabled c) v (site_config c).

Definition set_site_config (v : list SiteConfigBlock) (c : Config) : Config :=
  Build_Config (name c) (resource_group_name c) (location c) (app_service_plan_id c)
    (enabled c) (version c) (storage_connection_string c) (app_settings c)
    (connection_string c) (tags c) (default_hostname c) (outbound_ip_addresses c)
    (client_affinity_enabled c) (https_only c) v.

(** ** The remote management API *)

Record StringDictionary := {
  sdProperties : gmap string (option string)
}.

Record ConnectionStringDictionary := {
  csdProperties : gmap string (option ConnStringValueTypePair)
}.

Record SiteConfigResource := {
  resSiteConfig : option SiteConfig
}.

(** [parseAzureResourceID] answers a resource group and a path of
    key/value segments. *)
Record ResourceID := {
  ResourceGroup : string;
  Path : gmap string string
}.

(** The calls of [web.AppsClient] this resource uses.  Each takes the remote
    world and answers the Go pair (value, error) and the world after the
    call; [Future] is what CreateOrUpdate hands to WaitForCompletion. *)
Record Client (W Future : Type) := {
  CheckNameAvailability :
    ResourceNameAvailabilityRequest → W → ResourceNameAvailability * option error * W;
  CreateOrUpdate : string → string → Site → W → Future * option error * W;
  WaitForCompletion : Future → W → option error * W;
  Get : string → string → W → Site * option error * W;
  ListApplicationSettings : string → string → W → StringDictionary * option error * W;
  ListConnectionStrings : string → string → W → ConnectionStringDictionary * option error * W;
  GetConfiguration : string → string → W → SiteConfigResource * option error * W;
  UpdateApplicationSettings :
    string → string → StringDictionary → W → StringDictionary * option error * W;
  CreateOrUpdateConfiguration :
    string → string → SiteConfigResource → W → SiteConfigResource * option error * W;
  UpdateConnectionStrings :
    string → string → ConnectionStringDictionary → W
    → ConnectionStringDictionary * option error * W;
  Delete : string → string → option bool → option bool → W → Response * option error * W
}.
Arguments CheckNameAvailability {W Future} _ _ _.
Arguments CreateOrUpdate {W Future} _ _ _ _ _.
Arguments WaitForCompletion {W Future} _ _ _.
Arguments Get {W Future} _ _ _ _.
Arguments ListApplicationSettings {W Future} _ _ _ _.
Arguments ListConnectionStrings {W Future} _ _ _ _.
Arguments GetConfiguration {W Future} _ _ _ _.
Arguments UpdateApplicationSettings {W Future} _ _ _ _ _.
Arguments CreateOrUpdateConfiguration {W Future} _ _ _ _ _.
Arguments UpdateConnectionStrings {W Future} _ _ _ _ _.
Arguments Delete {W Future} _ _ _ _ _ _.

(** One remote call as it happened: its arguments, and the error (and, where
    the code looks at it, the response) it came back with. *)
Inductive Event : Type :=
| EvCheckNameAvailability (request : ResourceNameAvailabilityRequest)
    (resp : ResourceNameAvailability) (err : option error)
| EvCreateOrUpdate (resGroup name : string) (siteEnvelope : Site) (err : option error)
| EvWaitForCompletion (err : option error)
| EvGet (resGroup name : string) (resp : Site) (err : option error)
| EvListApplicationSettings (resGroup name : string) (err : option error)
| EvListConnectionStrings (resGroup name : string) (err : option error)
| EvGetConfiguration (resGroup name : string) (err : option error)
| EvUpdateApplicationSettings (resGroup name : string) (settings : StringDictionary)
    (err : option error)
| EvCreateOrUpdateConfiguration (resGroup name : string)
    (siteConfigResource : SiteConfigResource) (err : option error)
| EvUpdateConnectionStrings (resGroup name : string)
    (properties : ConnectionStringDictionary) (err : option error)
| EvDelete (resGroup name : string) (deleteMetrics deleteEmptyServerFarm : option bool)
    (resp : Response) (err : option error).

(** Which method of the client an event is a call of. *)
Inductive Method : Type :=
| MCheckNameAvailability
| MCreateOrUpdate
| MWaitForCompletion
| MGet
| MListApplicationSettings
| MListConnectionStrings
| MGetConfiguration
| MUpdateApplicationSettings
| MCreateOrUpdateConfiguration
| MUpdateConnectionStrings
| MDelete.

#[global] Instance Method_eq_dec : EqDecision Method.
Proof. solve_decision. Defined.

Definition event_method (ev : Event) : Method :=
  match ev with
  | EvCheckNameAvailability _ _ _ => MCheckNameAvailability
  | EvCreateOrUpdate _ _ _ _ => MCreateOrUpdate
  | EvWaitForCompletion _ => MWaitForCompletion
  | EvGet _ _ _ _ => MGet
  | EvListApplicationSettings _ _ _ => MListApplicationSettings
  | EvListConnectionStrings _ _ _ => MListConnectionStrings
  | EvGetConfiguration _ _ _ => MGetConfiguration
  | EvUpdateApplicationSettings _ _ _ _ => MUpdateApplicationSettings
  | EvCreateOrUpdateConfiguration _ _ _ _ => MCreateOrUpdateConfiguration
  | EvUpdateConnectionStrings _ _ _ _ => MUpdateConnectionStrings
  | EvDelete _ _ _ _ _ _ => MDelete
  end.

(** The error a call came back with, nil when it succeeded. *)
Definition event_error (ev : Event) : option error :=
  match ev with
  | EvCheckNameAvailability _ _ err
  | EvCreateOrUpdate _ _ _ err
  | EvWaitForCompletion err
  | EvGet _ _ _ err
  | EvListApplicationSettings _ _ err
  | EvListConnectionStrings _ _ err
  | EvGetConfiguration _ _ err
  | EvUpdateApplicationSettings _ _ _ err
  | EvCreateOrUpdateConfiguration _ _ _ err
  | EvUpdateConnectionStrings _ _ _ err
  | EvDelete _ _ _ _ _ err => err
  end.

(** The resource name a call was made for. *)
Definition event_name (ev : Event) : string :=
  match ev with
  | EvCheckNameAvailability request _ _ => default "" (reqName request)
  | EvWaitForCompletion _ => ""
  | EvCreateOrUpdate _ name _ _
  | EvGet _ name _ _
  | EvListApplicationSettings _ name _
  | EvListConnectionStrings _ name _
  | EvGetConfiguration _ name _
  | EvUpdateApplicationSettings _ name _ _
  | EvCreateOrUpdateConfiguration _ name _ _
  | EvUpdateConnectionStrings _ name _ _
  | EvDelete _ name _ _ _ _ => name
  end.

(** Two questions asked of a trace: was a method called, and did a call of
    it fail. *)
Definition called (m : Method) (t : list Event) : Prop :=
  ∃ ev, ev ∈ t ∧ event_method ev = m.

Definition failed (m : Method) (t : list Event) : Prop :=
  ∃ ev e, ev ∈ t ∧ event_method ev = m ∧ event_error ev = Some e.

(** The three targeted update calls of Update, and the four calls of Read. *)
Definition update_methods : list Method :=
  [MUpdateApplicationSettings; MCreateOrUpdateConfiguration; MUpdateConnectionStrings].

Definition read_methods : list Method :=
  [MGet; MListApplicationSettings; MListConnectionStrings; MGetConfiguration].

(** The format string each operation wraps a failure of a method in; no
    entry where the failure is returned as it came. *)
Definition read_context (m : Method) : option string :=
  match m with
  | MGet => Some "Error making Read request on AzureRM Function App %q: %+v"
  | MListApplicationSettings =>
      Some "Error making Read request on AzureRM Function App AppSettings %q: %+v"
  | MListConnectionStrings =>
      Some "Error making Read request on AzureRM Function App ConnectionStrings %q: %+v"
  | MGetConfiguration =>
      Some "Error making Read request on AzureRM Function App Configuration %q: %+v"
  | _ => None
  end.

Definition update_context (m : Method) : option string :=
  match m with
  | MUpdateApplicationSettings =>
      Some "Error updating Application Settings for Function App %q: %+v"
  | MCreateOrUpdateConfiguration =>
      Some "Error updating Configuration for Function App %q: %+v"
  | MUpdateConnectionStrings =>
      Some "Error updating Connection Strings for App Service %q: %+v"
  | _ => read_context m
  end.

(** [wrapped format ev cause e]: [e] is [fmt.Errorf(format, name, cause)]
    for the resource name of the call [ev]. *)
Definition wrapped (format : option string) (ev : Event) (cause e : error) : Prop :=
  ∃ f, format = Some f ∧ e = Errorf f [ArgString (event_name ev); ArgError cause].

(** The five implicit keys are in a map sent to the API, each with a value. *)
Definition has_implicit_keys (m : gmap string (option string)) : Prop :=
  Forall (λ k, ∃ v, m !! k = Some (Some v)) implicit_keys.

(** None of the five implicit keys is in a map of the configuration. *)
Definition lacks_implicit_keys (m : gmap string string) : Prop :=
  Forall (λ k, m !! k = None) implicit_keys.

(** The helpers of the provider and of the schema framework that this file
    calls and that live in other files. *)
Record Helpers := {
  parseAzureResourceID : string → ResourceID + error;
  ResponseWasNotFound : Response → bool;
  azureRMNormalizeLocation : string → string;
  expandTags : gmap string string → gmap string (option string);
  flattenTags : gmap string (option string) → gmap string string;
  expandAppServiceAppSettings : ResourceData → gmap string (option string);
  flattenAppServiceAppSettings : gmap string (option string) → gmap string string;
  (** [d.Set key v] answers an error for the keys the schema writer rejects. *)
  set_rejects : string → option error
}.

(** ** The operations *)

Section Adapter.
Context {W Future : Type}.
Variable client : Client W Future.
Variable helpers : Helpers.

(** What an operation works on: the resource data [d] it was handed (a
    pointer, so its writes are seen by the caller) and the remote world. *)
Record St := {
  data : ResourceData;
  world : W
}.

(** An operation: from a state to its outcome, the state it leaves, and
    the remote calls it issued, oldest first. *)
Definition M (A : Type) : Type := St → Result A * St * list Event.

Definition ret {A} (a : A) : M A := λ s, (Ok a, s, []).

Definition bind {A B} (m : M A) (f : A → M B) : M B := λ s,
  match m s with
  | (Ok a, s', t) => let '(r, s'', t') := f a s' in (r, s'', t ++ t')
  | (Err e, s', t) => (Err e, s', t)
  | (Panic, s', t) => (Panic, s', t)
  end.

(** [return err] *)
Definition fail {A} (e : error) : M A := λ s, (Err e, s, []).

Definition lift {A} (r : Result A) : M A := λ s, (r, s, []).

Definition getData : M ResourceData := λ s, (Ok (data s), s, []).

Definition modifyData (f : ResourceData → ResourceData) : M unit := λ s,
  (Ok tt, {| data := f (data s); world := world s |}, []).

(** A remote call: the world moves on and the call is recorded. *)
Definition call {R} (f : W → R * W) (ev : R → Event) : M R := λ s,
  let '(r, w') := f (world s) in
  (Ok r, {| data := data s; world := w' |}, [ev r]).

#[global] Instance M_ret : MRet M := @ret.
#[global] Instance M_bind : MBind M := λ A B f m, bind m f.

(** [d.Set(key, v)]: the write happens unless the schema writer rejects
    the key; the error is handed back for the caller to check or drop. *)
Definition dSet (key : string) (write : Config → Config) : M (option error) :=
  match set_rejects helpers key with
  | Some e => ret (Some e)
  | None => modifyData (with_current write);; ret None
  end.

(** [if err := d.Set(key, v); err != nil { return err }] *)
Definition dSetChecked (key : string) (write : Config → Config) : M unit :=
  err ← dSet key write;
  match err with
  | Some e => fail e
  | None => ret tt
  end.

(** [if err != nil { return wrap(err) }] *)
Definition check (err : option error) (wrap : error → error) : M unit :=
  match err with
  | Some e => fail (wrap e)
  | None => ret tt
  end.

(** Modelled from the spec: flattenAndSetTags lives in the provider's tags
    file, which is not part of src/; the attribute surface lists [tags]
    as one attribute among the others, so the helper stores the flattened
    remote tags under [tags] and writes no other attribute. *)
Definition flattenAndSetTags (tagsMap : gmap string (option string)) : M unit :=
  dSet "tags" (set_tags (flattenTags helpers tagsMap));; ret tt.

Definition expandFunctionAppAppSettings (d : ResourceData)
  : Result (gmap string (option string)) :=
  let output := expandAppServiceAppSettings helpers d in
  let basicAppSettings := getBasicFunctionAppAppSettings d in
  assign_pairs basicAppSettings output.

Definition resourceArmFunctionAppRead : M unit :=
  d ← getData;
  match parseAzureResourceID helpers (Id d) with
  | inr err => fail err
  | inl id =>
      let resGroup := ResourceGroup id in
      let name := at_key (Path id) "sites" in
      '(resp, err) ← call (Get client resGroup name) (λ r, EvGet resGroup name r.1 r.2);
      match err with
      | Some err =>
          if ResponseWasNotFound helpers (siteResponse resp) then
            modifyData (SetId "");; ret tt
          else
            fail (Errorf "Error making Read request on AzureRM Function App %q: %+v"
                    [ArgString name; ArgError err])
      | None =>
          '(appSettingsResp, err) ←
            call (ListApplicationSettings client resGroup name)
                 (λ r, EvListApplicationSettings resGroup name r.2);
          check err (λ err,
            Errorf "Error making Read request on AzureRM Function App AppSettings %q: %+v"
              [ArgString name; ArgError err]);;
          '(connectionStringsResp, err) ←
            call (ListConnectionStrings client resGroup name)
                 (λ r, EvListConnectionStrings resGroup name r.2);
          check err (λ err,
            Errorf "Error making Read request on AzureRM Function App ConnectionStrings %q: %+v"
              [ArgString name; ArgError err]);;
          dSet "name" (set_name name);;
          dSet "resource_group_name" (set_resource_group_name resGroup);;
          match Location resp with
          | Some location =>
              dSet "location" (set_location (azureRMNormalizeLocation helpers location));;
              ret tt
          | None => ret tt
          end;;
          match siteProperties resp with
          | Some props =>
              dSet "app_service_plan_id"
                (set_app_service_plan_id (deref_or "" (ServerFarmID props)));;
              dSet "enabled" (set_enabled (deref_or false (Enabled props)));;
              dSet "default_hostname"
                (set_default_hostname (deref_or "" (DefaultHostName props)));;
              dSet "https_only" (set_https_only (deref_or false (HTTPSOnly props)));;
              dSet "outbound_ip_addresses"
                (set_outbound_ip_addresses (deref_or "" (OutboundIPAddresses props)));;
              dSet "client_affinity_enabled"
                (set_client_affinity_enabled (deref_or false (ClientAffinityEnabled props)));;
              ret tt
          | None => ret tt
          end;;
          let appSettings :=
            flattenAppServiceAppSettings helpers (sdProperties appSettingsResp) in
          dSet "storage_connection_string"
            (set_storage_connection_string (at_key appSettings "AzureWebJobsStorage"));;
          dSet "version"
            (set_version (at_key appSettings "FUNCTIONS_EXTENSION_VERSION"));;
          let appSettings := delete "AzureWebJobsDashboard" appSettings in
          let appSettings := delete "AzureWebJobsStorage" appSettings in
          let appSettings := delete "FUNCTIONS_EXTENSION_VERSION" appSettings in
          let appSettings := delete "WEBSITE_CONTENTSHARE" appSettings in
          let appSettings := delete "WEBSITE_CONTENTAZUREFILECONNECTIONSTRING" appSettings in
          dSetChecked "app_settings" (set_app_settings appSettings);;
          connectionStrings ←
            lift (flattenFunctionAppConnectionStrings (csdProperties connectionStringsResp));
          dSetChecked "connection_string" (set_connection_string connectionStrings);;
          '(configResp, err) ←
            call (GetConfiguration client resGroup name)
                 (λ r, EvGetConfiguration resGroup name r.2);
          check err (λ err,
            Errorf "Error making Read request on AzureRM Function App Configuration %q: %+v"
              [ArgString name; ArgError err]);;
          let siteConfig := flattenFunctionAppSiteConfig (resSiteConfig configResp) in
          dSetChecked "site_config" (set_site_config siteConfig);;
          flattenAndSetTags (Tags resp);;
          ret tt
      end
  end.

Definition resourceArmFunctionAppUpdate : M unit :=
  d ← getData;
  match parseAzureResourceID helpers (Id d) with
  | inr err => fail err
  | inl id =>
      let resGroup := ResourceGroup id in
      let name := at_key (Path id) "sites" in
      (if HasChange app_settings d || HasChange version d then
         appSettings ← lift (expandFunctionAppAppSettings d);
         let settings := {| sdProperties := appSettings |} in
         '(_, err) ←
           call (UpdateApplicationSettings client resGroup name settings)
                (λ r, EvUpdateApplicationSettings resGroup name settings r.2);
         check err (λ err,
           Errorf "Error updating Application Settings for Function App %q: %+v"
             [ArgString name; ArgError err])
       else ret tt);;
      (if HasChange site_config d then
         let siteConfig := expandFunctionAppSiteConfig d in
         let siteConfigResource := {| resSiteConfig := Some siteConfig |} in
         '(_, err) ←
           call (CreateOrUpdateConfiguration client resGroup name siteConfigResource)
                (λ r, EvCreateOrUpdateConfiguration resGroup name siteConfigResource r.2);
         check err (λ err,
           Errorf "Error updating Configuration for Function App %q: %+v"
             [ArgString name; ArgError err])
       else ret tt);;
      (if HasChange connection_string d then
         let connectionStrings := expandFunctionAppConnectionStrings d in
         let properties := {| csdProperties := connectionStrings |} in
         '(_, err) ←
           call (UpdateConnectionStrings client resGroup name properties)
                (λ r, EvUpdateConnectionStrings resGroup name properties r.2);
         check err (λ err,
           Errorf "Error updating Connection Strings for App Service %q: %+v"
             [ArgString name; ArgError err])
       else ret tt);;
      resourceArmFunctionAppRead
  end.

(** The request body of Create (the locals [resGroup] to [siteEnvelope] of
    resourceArmFunctionAppCreate). *)
Definition createSiteEnvelope (d : ResourceData) : Site :=
  let location := azureRMNormalizeLocation helpers (location (current d)) in
  let kind := "functionapp" in
  let appServicePlanID := app_service_plan_id (current d) in
  let enabled := enabled (current d) in
  let clientAffinityEnabled := client_affinity_enabled (current d) in
  let tags := tags (current d) in
  let basicAppSettings := getBasicFunctionAppAppSettings d in
  let siteConfig := expandFunctionAppSiteConfig d in
  let siteConfig :=
    {| AppSettings := Some basicAppSettings;
       AlwaysOn := AlwaysOn siteConfig;
       Use32BitWorkerProcess := Use32BitWorkerProcess siteConfig;
       WebSocketsEnabled := WebSocketsEnabled siteConfig |} in
  {| siteResponse := {| StatusCode := None |};
     ID := None;
     Kind := Some kind;
     Location := Some location;
     Tags := expandTags helpers tags;
     siteProperties := Some
       {| ServerFarmID := Some appServicePlanID;
          Enabled := Some enabled;
          DefaultHostName := None;
          HTTPSOnly := None;
          OutboundIPAddresses := None;
          ClientAffinityEnabled := Some clientAffinityEnabled;
          propsSiteConfig := Some siteConfig |} |}.

Definition availabilityRequest (d : ResourceData) : ResourceNameAvailabilityRequest :=
  {| reqName := Some (name (current d)); reqType := "Microsoft.Web/sites" |}.

Definition resourceArmFunctionAppCreate : M unit :=
  d ← getData;
  let name := name (current d) in
  let availabilityRequest := availabilityRequest d in
  '(available, err) ←
    call (CheckNameAvailability client availabilityRequest)
         (λ r, EvCheckNameAvailability availabilityRequest r.1 r.2);
  check err (λ err,
    Errorf "Error checking if the name %q was available: %+v"
      [ArgString name; ArgError err]);;
  match NameAvailable available with
  | None => lift Panic
  | Some false =>
      match Message available with
      | None => lift Panic
      | Some message =>
          fail (Errorf "The name %q used for the Function App needs to be globally unique and isn't available: %s"
                  [ArgString name; ArgString message])
      end
  | Some true =>
      let resGroup := resource_group_name (current d) in
      let siteEnvelope := createSiteEnvelope d in
      '(createFuture, err) ←
        call (CreateOrUpdate client resGroup name siteEnvelope)
             (λ r, EvCreateOrUpdate resGroup name siteEnvelope r.2);
      check err (λ err, err);;
      err ← call (WaitForCompletion client createFuture) EvWaitForCompletion;
      check err (λ err, err);;
      '(read, err) ← call (Get client resGroup name) (λ r, EvGet resGroup name r.1 r.2);
      check err (λ err, err);;
      match ID read with
      | None =>
          fail (Errorf "Cannot read Function App %s (resource group %s) ID"
                  [ArgString name; ArgString resGroup])
      | Some readID =>
          modifyData (SetId readID);;
          resourceArmFunctionAppUpdate
      end
  end.

Definition resourceArmFunctionAppDelete : M unit :=
  d ← getData;
  match parseAzureResourceID helpers (Id d) with
  | inr err => fail err
  | inl id =>
      let resGroup := ResourceGroup id in
      let name := at_key (Path id) "sites" in
      let deleteMetrics := true in
      let deleteEmptyServerFarm := false in
      '(resp, err) ←
        call (Delete client resGroup name (Some deleteMetrics) (Some deleteEmptyServerFarm))
             (λ r, EvDelete resGroup name (Some deleteMetrics) (Some deleteEmptyServerFarm)
                     r.1 r.2);
      match err with
      | Some err =>
          if negb (ResponseWasNotFound helpers resp) then fail err else ret tt
      | None => ret tt
      end
  end.

(** Running an operation on resource data [d] against the remote world [w]. *)
Definition run {A} (m : M A) (d : ResourceData) (w : W) : Result A * St * list Event :=
  m {| data := d; world := w |}.

(** ** What a run can look like

    [post m s Q]: the outcome of [m] from [s], its final state and its
    calls satisfy [Q]. *)
Definition post {A} (m : M A) (s : St) (Q : Result A → St → list Event → Prop) : Prop :=
  Q (m s).1.1 (m s).1.2 (m s).2.

(** The settings map Read stores: the remote map flattened, less the five
    implicit keys. *)
Definition strippedAppSettings (props : gmap string (option string)) : gmap string string :=
  delete "WEBSITE_CONTENTAZUREFILECONNECTIONSTRING"
    (delete "WEBSITE_CONTENTSHARE"
       (delete "FUNCTIONS_EXTENSION_VERSION"
          (delete "AzureWebJobsStorage"
             (delete "AzureWebJobsDashboard"
                (flattenAppServiceAppSettings helpers props))))).

(** The runs of Read, one constructor per way out of the function. *)
Inductive ReadOutcome (d : ResourceData) (w : W)
  : Result unit → St → list Event → Prop :=
| Read_bad_id e :
    parseAzureResourceID helpers (Id d) = inr e →
    ReadOutcome d w (Err e) {| data := d; world := w |} []
| Read_not_found id resp e w1 :
    parseAzureResourceID helpers (Id d) = inl id →
    Get client (ResourceGroup id) (at_key (Path id) "sites") w = (resp, Some e, w1) →
    ResponseWasNotFound helpers (siteResponse resp) = true →
    ReadOutcome d w (Ok tt) {| data := SetId "" d; world := w1 |}
      [EvGet (ResourceGroup id) (at_key (Path id) "sites") resp (Some e)]
| Read_get_failed id resp e w1 :
    parseAzureResourceID helpers (Id d) = inl id →
    Get client (ResourceGroup id) (at_key (Path id) "sites") w = (resp, Some e, w1) →
    ResponseWasNotFound helpers (siteResponse resp) = false →
    ReadOutcome d w
      (Err (Errorf "Error making Read request on AzureRM Function App %q: %+v"
              [ArgString (at_key (Path id) "sites"); ArgError e]))
      {| data := d; world := w1 |}
      [EvGet (ResourceGroup id) (at_key (Path id) "sites") resp (Some e)]
| Read_app_settings_failed id resp e s :
    parseAzureResourceID helpers (Id d) = inl id →
    data s = d →
    ReadOutcome d w
      (Err (Errorf "Error making Read request on AzureRM Function App AppSettings %q: %+v"
              [ArgString (at_key (Path id) "sites"); ArgError e]))
      s
      [EvGet (ResourceGroup id) (at_key (Path id) "sites") resp None;
       EvListApplicationSettings (ResourceGroup id) (at_key (Path id) "sites") (Some e)]
| Read_connection_strings_failed id resp e s :
    parseAzureResourceID helpers (Id d) = inl id →
    data s = d →
    ReadOutcome d w
      (Err (Errorf "Error making Read request on AzureRM Function App ConnectionStrings %q: %+v"
              [ArgString (at_key (Path id) "sites"); ArgError e]))
      s
      [EvGet (ResourceGroup id) (at_key (Path id) "sites") resp None;
       EvListApplicationSettings (ResourceGroup id) (at_key (Path id) "sites") None;
       EvListConnectionStrings (ResourceGroup id) (at_key (Path id) "sites") (Some e)]
| Read_stopped_before_configuration id resp r s :
    parseAzureResourceID helpers (Id d) = inl id →
    r = Panic ∨ (∃ key e, set_rejects helpers key = Some e ∧ r = Err e) →
    ReadOutcome d w r s
      [EvGet (ResourceGroup id) (at_key (Path id) "sites") resp None;
       EvListApplicationSettings (ResourceGroup id) (at_key (Path id) "sites") None;
       EvListConnectionStrings (ResourceGroup id) (at_key (Path id) "sites") None]
| Read_configuration_failed id resp e s :
    parseAzureResourceID helpers (Id d) = inl id →
    ReadOutcome d w
      (Err (Errorf "Error making Read request on AzureRM Function App Configuration %q: %+v"
              [ArgString (at_key (Path id) "sites"); ArgError e]))
      s
      [EvGet (ResourceGroup id) (at_key (Path id) "sites") resp None;
       EvListApplicationSettings (ResourceGroup id) (at_key (Path id) "sites") None;
       EvListConnectionStrings (ResourceGroup id) (at_key (Path id) "sites") None;
       EvGetConfiguration (ResourceGroup id) (at_key (Path id) "sites") (Some e)]
| Read_site_config_rejected id resp e s :
    parseAzureResourceID helpers (Id d) = inl id →
    set_rejects helpers "site_config" = Some e →
    ReadOutcome d w (Err e) s
      [EvGet (ResourceGroup id) (at_key (Path id) "sites") resp None;
       EvListApplicationSettings (ResourceGroup id) (at_key (Path id) "sites") None;
       EvListConnectionStrings (ResourceGroup id) (at_key (Path id) "sites") None;
       EvGetConfiguration (ResourceGroup id) (at_key (Path id) "sites") None]
| Read_done id resp w1 appSettingsResp w2 s :
    parseAzureResourceID helpers (Id d) = inl id →
    Get client (ResourceGroup id) (at_key (Path id) "sites") w = (resp, None, w1) →
    ListApplicationSettings client (ResourceGroup id) (at_key (Path id) "sites") w1
      = (appSettingsResp, None, w2) →
    Id (data s) = Id d →
    app_settings (current (data s)) = strippedAppSettings (sdProperties appSettingsResp) →
    ReadOutcome d w (Ok tt) s
      [EvGet (ResourceGroup id) (at_key (Path id) "sites") resp None;
       EvListApplicationSettings (ResourceGroup id) (at_key (Path id) "sites") None;
       EvListConnectionStrings (ResourceGroup id) (at_key (Path id) "sites") None;
       EvGetConfiguration (ResourceGroup id) (at_key (Path id) "sites") None].


(** The map Update sends: the user's settings with the five implicit
    entries written over them, in the order of getBasicFunctionAppAppSettings. *)
Definition withImplicitSettings (d : ResourceData) : gmap string (option string) :=
  <["WEBSITE_CONTENTAZUREFILECONNECTIONSTRING" := Some (storage_connection_string (current d))]>
    (<["WEBSITE_CONTENTSHARE" := Some (name (current d) +:+ "-content")]>
       (<["FUNCTIONS_EXTENSION_VERSION" := Some (version (current d))]>
          (<["AzureWebJobsStorage" := Some (storage_connection_string (current d))]>
             (<["AzureWebJobsDashboard" := Some (storage_connection_string (current d))]>
                (expandAppServiceAppSettings helpers d))))).

(** The three targeted calls of Update, as events. *)
Definition appSettingsCall (d : ResourceData) (id : ResourceID) (err : option error) : Event :=
  EvUpdateApplicationSettings (ResourceGroup id) (at_key (Path id) "sites")
    {| sdProperties := withImplicitSettings d |} err.

Definition siteConfigCall (d : ResourceData) (id : ResourceID) (err : option error) : Event :=
  EvCreateOrUpdateConfiguration (ResourceGroup id) (at_key (Path id) "sites")
    {| resSiteConfig := Some (expandFunctionAppSiteConfig d) |} err.

Definition connectionStringsCall (d : ResourceData) (id : ResourceID) (err : option error)
  : Event :=
  EvUpdateConnectionStrings (ResourceGroup id) (at_key (Path id) "sites")
    {| csdProperties := expandFunctionAppConnectionStrings d |} err.

Definition issued (changed : bool) (ev : Event) : list Event :=
  if changed then [ev] else [].

Definition appSettingsChanged (d : ResourceData) : bool :=
  HasChange app_settings d || HasChange version d.

(** The runs of Update. *)
Inductive UpdateOutcome (d : ResourceData) (w : W)
  : Result unit → St → list Event → Prop :=
| Update_bad_id e :
    parseAzureResourceID helpers (Id d) = inr e →
    UpdateOutcome d w (Err e) {| data := d; world := w |} []
| Update_app_settings_failed id e s :
    parseAzureResourceID helpers (Id d) = inl id →
    appSettingsChanged d = true →
    data s = d →
    UpdateOutcome d w
      (Err (Errorf "Error updating Application Settings for Function App %q: %+v"
              [ArgString (at_key (Path id) "sites"); ArgError e]))
      s
      [appSettingsCall d id (Some e)]
| Update_site_config_failed id e s :
    parseAzureResourceID helpers (Id d) = inl id →
    HasChange site_config d = true →
    data s = d →
    UpdateOutcome d w
      (Err (Errorf "Error updating Configuration for Function App %q: %+v"
              [ArgString (at_key (Path id) "sites"); ArgError e]))
      s
      (issued (appSettingsChanged d) (appSettingsCall d id None)
       ++ [siteConfigCall d id (Some e)])
| Update_connection_strings_failed id e s :
    parseAzureResourceID helpers (Id d) = inl id →
    HasChange connection_string d = true →
    data s = d →
    UpdateOutcome d w
      (Err (Errorf "Error updating Connection Strings for App Service %q: %+v"
              [ArgString (at_key (Path id) "sites"); ArgError e]))
      s
      (issued (appSettingsChanged d) (appSettingsCall d id None)
       ++ issued (HasChange site_config d) (siteConfigCall d id None)
       ++ [connectionStringsCall d id (Some e)])
| Update_read id w3 r s tR :
    parseAzureResourceID helpers (Id d) = inl id →
    ReadOutcome d w3 r s tR →
    UpdateOutcome d w r s
      (issued (appSettingsChanged d) (appSettingsCall d id None)
       ++ issued (HasChange site_config d) (siteConfigCall d id None)
       ++ issued (HasChange connection_string d) (connectionStringsCall d id None)
       ++ tR).

(** The stored id parses. *)
Definition parses (d : ResourceData) : Prop :=
  ∃ id, parseAzureResourceID helpers (Id d) = inl id.

(** The availability response can be read without a nil dereference. *)
Definition populated (available : ResourceNameAvailability) : Prop :=
  match NameAvailable available with
  | None => False
  | Some true => True
  | Some false => is_Some (Message available)
  end.

(** The runs of Create. *)
Inductive CreateOutcome (d : ResourceData) (w : W)
  : Result unit → St → list Event → Prop :=
| Create_check_failed available e s :
    data s = d →
    CreateOutcome d w
      (Err (Errorf "Error checking if the name %q was available: %+v"
              [ArgString (name (current d)); ArgError e]))
      s
      [EvCheckNameAvailability (availabilityRequest d) available (Some e)]
| Create_nil_dereference available s :
    ¬ populated available →
    data s = d →
    CreateOutcome d w Panic s
      [EvCheckNameAvailability (availabilityRequest d) available None]
| Create_name_taken available message s :
    NameAvailable available = Some false →
    Message available = Some message →
    data s = d →
    CreateOutcome d w
      (Err (Errorf "The name %q used for the Function App needs to be globally unique and isn't available: %s"
              [ArgString (name (current d)); ArgString message]))
      s
      [EvCheckNameAvailability (availabilityRequest d) available None]
| Create_submit_failed available e s :
    NameAvailable available = Some true →
    data s = d →
    CreateOutcome d w (Err e) s
      [EvCheckNameAvailability (availabilityRequest d) available None;
       EvCreateOrUpdate (resource_group_name (current d)) (name (current d))
         (createSiteEnvelope d) (Some e)]
| Create_wait_failed available e s :
    NameAvailable available = Some true →
    data s = d →
    CreateOutcome d w (Err e) s
      [EvCheckNameAvailability (availabilityRequest d) available None;
       EvCreateOrUpdate (resource_group_name (current d)) (name (current d))
         (createSiteEnvelope d) None;
       EvWaitForCompletion (Some e)]
| Create_get_failed available read e s :
    NameAvailable available = Some true →
    data s = d →
    CreateOutcome d w (Err e) s
      [EvCheckNameAvailability (availabilityRequest d) available None;
       EvCreateOrUpdate (resource_group_name (current d)) (name (current d))
         (createSiteEnvelope d) None;
       EvWaitForCompletion None;
       EvGet (resource_group_name (current d)) (name (current d)) read (Some e)]
| Create_no_id available read s :
    NameAvailable available = Some true →
    ID read = None →
    data s = d →
    CreateOutcome d w
      (Err (Errorf "Cannot read Function App %s (resource group %s) ID"
              [ArgString (name (current d));
               ArgString (resource_group_name (current d))]))
      s
      [EvCheckNameAvailability (availabilityRequest d) available None;
       EvCreateOrUpdate (resource_group_name (current d)) (name (current d))
         (createSiteEnvelope d) None;
       EvWaitForCompletion None;
       EvGet (resource_group_name (current d)) (name (current d)) read None]
| Create_updated available read readID w4 r s tU :
    NameAvailable available = Some true →
    ID read = Some readID →
    UpdateOutcome (SetId readID d) w4 r s tU →
    CreateOutcome d w r s
      ([EvCheckNameAvailability (availabilityRequest d) available None;
        EvCreateOrUpdate (resource_group_name (current d)) (name (current d))
          (createSiteEnvelope d) None;
        EvWaitForCompletion None;
        EvGet (resource_group_name (current d)) (name (current d)) read None]
       ++ tU).

(** The runs of Delete. *)
Inductive DeleteOutcome (d : ResourceData) (w : W)
  : Result unit → St → list Event → Prop :=
| Delete_bad_id e :
    parseAzureResourceID helpers (Id d) = inr e →
    DeleteOutcome d w (Err e) {| data := d; world := w |} []
| Delete_done id resp w1 :
    parseAzureResourceID helpers (Id d) = inl id →
    Delete client (ResourceGroup id) (at_key (Path id) "sites") (Some true) (Some false) w
      = (resp, None, w1) →
    DeleteOutcome d w (Ok tt) {| data := d; world := w1 |}
      [EvDelete (ResourceGroup id) (at_key (Path id) "sites") (Some true) (Some false)
         resp None]
| Delete_not_found id resp e w1 :
    parseAzureResourceID helpers (Id d) = inl id →
    Delete client (ResourceGroup id) (at_key (Path id) "sites") (Some true) (Some false) w
      = (resp, Some e, w1) →
    ResponseWasNotFound helpers resp = true →
    DeleteOutcome d w (Ok tt) {| data := d; world := w1 |}
      [EvDelete (ResourceGroup id) (at_key (Path id) "sites") (Some true) (Some false)
         resp (Some e)]
| Delete_failed id resp e w1 :
    parseAzureResourceID helpers (Id d) = inl id →
    Delete client (ResourceGroup id) (at_key (Path id) "sites") (Some true) (Some false) w
      = (resp, Some e, w1) →
    ResponseWasNotFound helpers resp = false →
    DeleteOutcome d w (Err e) {| data := d; world := w1 |}
      [EvDelete (ResourceGroup id) (at_key (Path id) "sites") (Some true) (Some false)
         resp (Some e)].

(** The three parts of a run. *)
Definition outcome {A} (m : M A) (d : ResourceData) (w : W) : Result A := (run m d w).1.1.
Definition final {A} (m : M A) (d : ResourceData) (w : W) : St := (run m d w).1.2.
Definition trace {A} (m : M A) (d : ResourceData) (w : W) : list Event := (run m d w).2.

End Adapter.

Arguments St : clear implicits.
Arguments M : clear implicits.
Arguments Build_St {W} _ _.
Arguments data {W} _.
Arguments world {W} _.

(** ** A remote world answering from a fixed table

    Used to run the operations on concrete inputs: every call answers what
    the table says and leaves the table as it is. *)

Record Canned := {
  cannedAvailability : ResourceNameAvailability * option error;
  cannedCreateOrUpdate : option error;
  cannedWait : option error;
  cannedGet : Site * option error;
  cannedAppSettings : StringDictionary * option error;
  cannedConnectionStrings : ConnectionStringDictionary * option error;
  cannedConfiguration : SiteConfigResource * option error;
  cannedUpdateAppSettings : option error;
  cannedUpdateConfiguration : option error;
  cannedUpdateConnectionStrings : option error;
  cannedDelete : Response * option error
}.

Definition cannedClient : Client Canned unit :=
  {| CheckNameAvailability := λ _ w, (cannedAvailability w, w);
     CreateOrUpdate := λ _ _ _ w, (tt, cannedCreateOrUpdate w, w);
     WaitForCompletion := λ _ w, (cannedWait w, w);
     Get := λ _ _ w, (cannedGet w, w);
     ListApplicationSettings := λ _ _ w, (cannedAppSettings w, w);
     ListConnectionStrings := λ _ _ w, (cannedConnectionStrings w, w);
     GetConfiguration := λ _ _ w, (cannedConfiguration w, w);
     UpdateApplicationSettings := λ _ _ settings w, (settings, cannedUpdateAppSettings w, w);
     CreateOrUpdateConfiguration := λ _ _ res w, (res, cannedUpdateConfiguration w, w);
     UpdateConnectionStrings := λ _ _ props w, (props, cannedUpdateConnectionStrings w, w);
     Delete := λ _ _ _ _ w, (cannedDelete w, w) |}.

Definition sampleId : string :=
  "/subscriptions/0/resourceGroups/group1/providers/Microsoft.Web/sites/app1".

(** Stand-ins for the helpers kept in other files.  The parser knows the one
    id [sampleId] (resource group group1, site app1); a response is
    not-found when its status is 404; locations and tags pass unchanged;
    application settings are copied between the two map types; the schema
    writer rejects nothing. *)
Definition sampleHelpers : Helpers :=
  {| parseAzureResourceID := λ id,
       if bool_decide (id = sampleId)
       then inl {| ResourceGroup := "group1"; Path := {[ "sites" := "app1" ]} |}
       else inr (ForeignError "cannot parse the resource id");
     ResponseWasNotFound := λ resp, bool_decide (StatusCode resp = Some 404%Z);
     azureRMNormalizeLocation := λ l, l;
     expandTags := λ t, Some <$> t;
     flattenTags := λ t, default "" <$> t;
     expandAppServiceAppSettings := λ d, Some <$> app_settings (current d);
     flattenAppServiceAppSettings := λ m, default "" <$> m;
     set_rejects := λ _, None |}.

Definition sampleConfig : Config :=
  {| name := "app1"; resource_group_name := "group1"; location := "westeurope";
     app_service_plan_id := "plan1"; enabled := true; version := "~1";
     storage_connection_string := "storage1";
     app_settings := {[ "k" := "v" ]};
     connection_string := [];
     tags := ∅; default_hostname := ""; outbound_ip_addresses := "";
     client_affinity_enabled := false; https_only := false;
     site_config := [] |}.

(** The applied configuration, unchanged. *)
Definition sampleData : ResourceData :=
  {| Id := sampleId; prior := sampleConfig; current := sampleConfig |}.

(** Only [version] changes, from "~1" to "beta". *)
Definition versionBump : ResourceData :=
  {| Id := sampleId; prior := sampleConfig; current := set_version "beta" sampleConfig |}.

Definition sampleConnectionStrings : list ConnectionStringBlock :=
  [ {| cs_name := "db"; cs_type := "SQLAzure"; cs_value := "Server=db1" |};
    {| cs_name := "cache"; cs_type := "RedisCache"; cs_value := "cache1:6380" |} ].

(** [app_settings], [site_config] and [connection_string] all change; the
    user also supplies a value for one of the implicit keys. *)
Definition allChanged : ResourceData :=
  {| Id := sampleId;
     prior := sampleConfig;
     current :=
       set_connection_string sampleConnectionStrings
         (set_site_config
            [ {| always_on := Some true; use_32_bit_worker_process := Some false;
                 websockets_enabled := Some false |} ]
            (set_app_settings {[ "k" := "v2"; "AzureWebJobsStorage" := "mine" ]}
               sampleConfig)) |}.

Definition sampleSite : Site :=
  {| siteResponse := {| StatusCode := Some 200%Z |};
     ID := Some sampleId; Kind := Some "functionapp"; Location := Some "westeurope";
     Tags := ∅; siteProperties := None |}.

Definition notFoundSite : Site :=
  {| siteResponse := {| StatusCode := Some 404%Z |};
     ID := None; Kind := None; Location := None; Tags := ∅; siteProperties := None |}.

(** A table from the answers that vary between the runs below; every
    other call succeeds. *)
Definition cannedWorld
  (availability : ResourceNameAvailability * option error)
  (createOrUpdate : option error)
  (get : Site * option error)
  (updateConnectionStrings : option error)
  (delete : Response * option error) : Canned :=
  {| cannedAvailability := availability;
     cannedCreateOrUpdate := createOrUpdate;
     cannedWait := None;
     cannedGet := get;
     cannedAppSettings :=
       ({| sdProperties :=
             {[ "AzureWebJobsStorage" := Some "storage1";
                "FUNCTIONS_EXTENSION_VERSION" := Some "~1";
                "k" := Some "v" ]} |},
        None);
     cannedConnectionStrings := ({| csdProperties := ∅ |}, None);
     cannedConfiguration := ({| resSiteConfig := None |}, None);
     cannedUpdateAppSettings := None;
     cannedUpdateConfiguration := None;
     cannedUpdateConnectionStrings := updateConnectionStrings;
     cannedDelete := delete |}.

Definition nameAvailable : ResourceNameAvailability * option error :=
  ({| NameAvailable := Some true; Message := None |}, None).


Definition noAnswer : ResourceNameAvailability * option error :=
  ({| NameAvailable := None; Message := None |}, None).

Definition deleted : Response * option error := ({| StatusCode := Some 200%Z |}, None).

Definition alreadyDeleted : Response * option error :=
  ({| StatusCode := Some 404%Z |}, Some (ForeignError "Not Found")).

(** Every call succeeds. *)
Definition sampleWorld : Canned :=
  cannedWorld nameAvailable None (sampleSite, None) None deleted.


(** The availability call succeeds with an empty response. *)
Definition noAnswerWorld : Canned :=
  cannedWorld noAnswer None (sampleSite, None) None deleted.

(** The create-or-update request is refused. *)
Definition conflictWorld : Canned :=
  cannedWorld nameAvailable (Some (ForeignError "Conflict")) (sampleSite, None) None deleted.

(** The resource is gone: get and delete answer 404. *)
Definition goneWorld : Canned :=
  cannedWorld nameAvailable None (notFoundSite, Some (ForeignError "Not Found")) None
    alreadyDeleted.

(** The connection-string update fails. *)
Definition failingConnectionStringsWorld : Canned :=
  cannedWorld nameAvailable None (sampleSite, None) (Some (ForeignError "Bad Request"))
    deleted.

(** The four operations against the table client. *)
Definition sampleCreate : M Canned unit := resourceArmFunctionAppCreate cannedClient sampleHelpers.
Definition sampleRead : M Canned unit := resourceArmFunctionAppRead cannedClient sampleHelpers.
Definition sampleUpdate : M Canned unit := resourceArmFunctionAppUpdate cannedClient sampleHelpers.
Definition sampleDelete : M Canned unit := resourceArmFunctionAppDelete cannedClient sampleHelpers.

(** What [sampleId] parses to. *)
Definition sampleResourceID : ResourceID :=
  {| ResourceGroup := "group1"; Path := {[ "sites" := "app1" ]} |}.

(** ** Notions used to state what the helpers and the operations do beyond
    the properties above *)

(** The last block of a list that carries a given name: with repeated
    names, the block whose entry the loop of
    expandFunctionAppConnectionStrings leaves in the map. *)
Definition lastNamed (n : string) (l : list ConnectionStringBlock)
  : option ConnectionStringBlock :=
  last (filter (λ v, cs_name v = n) l).

(** A map entry the loop of flattenFunctionAppConnectionStrings can read:
    neither the pair nor its value is nil. *)
Definition readable (o : option ConnStringValueTypePair) : Prop :=
  ∃ v value, o = Some v ∧ pairValue v = Some value.

#[global] Instance readable_dec o : Decision (readable o).
Proof.
  destruct o as [[[value|] ty]|].
  - left. by eexists _, _.
  - right. intros (v & value & ? & ?). by simplify_eq/=.
  - right. by intros (v & value & ? & ?).
Defined.

(** The block that loop builds from a readable entry. *)
Definition entryBlock (kv : string * option ConnStringValueTypePair) : ConnectionStringBlock :=
  {| cs_name := kv.1;
     cs_type := from_option pairType "" kv.2;
     cs_value := default "" (kv.2 ≫= pairValue) |}.

(** The block of a [site_config] list that expandFunctionAppSiteConfig
    reads: the first one, or no key at all when the list is empty. *)
Definition firstSiteConfigBlock (l : list SiteConfigBlock) : SiteConfigBlock :=
  match l with
  | [] => {| always_on := None; use_32_bit_worker_process := None;
             websockets_enabled := None |}
  | config :: _ => config
  end.

(** The four calls of Create that precede its Update. *)
Definition create_methods : list Method :=
  [MCheckNameAvailability; MCreateOrUpdate; MWaitForCompletion; MGet].

(** The shape of the calls of Update: some of the three targeted updates,
    in the order of the function, then a beginning of the calls of Read. *)
Definition update_shaped (ms : list Method) : Prop :=
  ∃ us rs, ms = us ++ rs ∧ us `sublist_of` update_methods ∧ rs `prefix_of` read_methods.

(** ** More inputs for running the operations *)

(** Resource data whose id the stand-in parser does not know. *)
Definition unparsableData : ResourceData :=
  {| Id := "not-an-id"; prior := sampleConfig; current := sampleConfig |}.

(** Two blocks share the name db. *)
Definition repeatedNames : ResourceData :=
  {| Id := sampleId;
     prior := sampleConfig;
     current :=
       set_connection_string
         [ {| cs_name := "db"; cs_type := "SQLAzure"; cs_value := "Server=old" |};
           {| cs_name := "cache"; cs_type := "RedisCache"; cs_value := "cache1:6380" |};
           {| cs_name := "db"; cs_type := "MySQL"; cs_value := "Server=new" |} ]
         sampleConfig |}.

(** A site answered without an ID. *)
Definition siteWithoutId : Site :=
  {| siteResponse := {| StatusCode := Some 200%Z |};
     ID := None; Kind := Some "functionapp"; Location := Some "westeurope";
     Tags := ∅; siteProperties := None |}.

(** The get call succeeds but answers without an ID. *)
Definition noIdWorld : Canned :=
  cannedWorld nameAvailable None (siteWithoutId, None) None deleted.

(** A connection-string map as the API may answer it. *)
Definition remoteConnectionStrings : gmap string (option ConnStringValueTypePair) :=
  {[ "db" := Some {| pairValue := Some "Server=db1"; pairType := "SQLAzure" |};
     "cache" := Some {| pairValue := Some "cache1:6380"; pairType := "RedisCache" |} ]}.

(** A connection-string map with a pair whose value is nil. *)
Definition brokenConnectionStrings : gmap string (option ConnStringValueTypePair) :=
  {[ "db" := Some {| pairValue := None; pairType := "SQLAzure" |} ]}.

(** The list of connection strings holds a pair with a nil value. *)
Definition nilEntryWorld : Canned :=
  {| cannedAvailability := nameAvailable;
     cannedCreateOrUpdate := None;
     cannedWait := None;
     cannedGet := (sampleSite, None);
     cannedAppSettings := ({| sdProperties := ∅ |}, None);
     cannedConnectionStrings := ({| csdProperties := brokenConnectionStrings |}, None);
     cannedConfiguration := ({| resSiteConfig := None |}, None);
     cannedUpdateAppSettings := None;
     cannedUpdateConfiguration := None;
     cannedUpdateConnectionStrings := None;
     cannedDelete := deleted |}.




(** A [site_config] block as the schema hands it to the code: each of its
    three keys is a boolean with a default, so each of them is present. *)
Definition completeBlock (b : SiteConfigBlock) : Prop :=
  is_Some (always_on b)
  ∧ is_Some (use_32_bit_worker_process b)
  ∧ is_Some (websockets_enabled b).

(** A remote site configuration with none of its three flags nil: the
    block flatten builds from it is then a complete one. *)
Definition completeSiteConfig (input : SiteConfig) : Prop :=
  is_Some (AlwaysOn input)
  ∧ is_Some (Use32BitWorkerProcess input)
  ∧ is_Some (WebSocketsEnabled input).

(** * Reasoning about runs *)

Section Logic.
Context {W Future : Type}.
Variable client : Client W Future.
Variable helpers : Helpers.

#[local] Abbreviation M := (M W).
#[local] Abbreviation St := (St W).

Lemma post_ret {A} (a : A) (s : St) Q : Q (Ok a) s [] → post (mret a : M A) s Q.
Proof. done. Qed.

Lemma post_fail {A} (e : error) (s : St) Q : Q (Err e) s [] → post (fail e : M A) s Q.
Proof. done. Qed.

Lemma post_lift {A} (r : Result A) (s : St) Q : Q r s [] → post (lift r : M A) s Q.
Proof. done. Qed.

Lemma post_bind {A B} (m : M A) (f : A → M B) (s : St) Q :
  post m s (λ r s' t,
    match r with
    | Ok a => post (f a) s' (λ r' s'' t', Q r' s'' (t ++ t'))
    | Err e => Q (Err e) s' t
    | Panic => Q Panic s' t
    end) →
  post (m ≫= f) s Q.
Proof.
  unfold post, mbind, M_bind, bind.
  destruct (m s) as [[[a|e|] s'] t]; simpl; [|done..].
  by destruct (f a s') as [[r s''] t'].
Qed.

Lemma post_getData (s : St) Q : Q (Ok (data s)) s [] → post getData s Q.
Proof. done. Qed.

Lemma post_modifyData f (s : St) Q :
  Q (Ok tt) {| data := f (data s); world := world s |} [] → post (modifyData f) s Q.
Proof. done. Qed.

Lemma post_call {R} (f : W → R * W) ev (s : St) Q :
  (∀ r w', f (world s) = (r, w') → Q (Ok r) {| data := data s; world := w' |} [ev r]) →
  post (call f ev) s Q.
Proof.
  intros H. unfold post, call. destruct (f (world s)) as [r w'] eqn:E. simpl. by apply H.
Qed.

Lemma post_check err wrap (s : St) Q :
  match err with
  | Some e => Q (Err (wrap e)) s []
  | None => Q (Ok tt) s []
  end →
  post (check err wrap) s Q.
Proof. by destruct err. Qed.

(** A write whose outcome the caller drops: the id and the world stay. *)
Lemma post_dSet_any key write (s : St) Q :
  (∀ err d', Id d' = Id (data s) → Q (Ok err) {| data := d'; world := world s |} []) →
  post (dSet helpers key write) s Q.
Proof.
  intros H. unfold post, dSet. destruct (set_rejects helpers key); simpl.
  - destruct s; by apply H.
  - by apply H.
Qed.

Lemma post_dSet key write (s : St) Q :
  match set_rejects helpers key with
  | Some e => Q (Ok (Some e)) s []
  | None => Q (Ok None) {| data := with_current write (data s); world := world s |} []
  end →
  post (dSet helpers key write) s Q.
Proof. unfold post, dSet. by destruct (set_rejects helpers key). Qed.

Lemma post_dSetChecked key write (s : St) Q :
  match set_rejects helpers key with
  | Some e => Q (Err e) s []
  | None => Q (Ok tt) {| data := with_current write (data s); world := world s |} []
  end →
  post (dSetChecked helpers key write) s Q.
Proof.
  intros H. unfold dSetChecked. apply post_bind, post_dSet.
  destruct (set_rejects helpers key); by apply post_fail || apply post_ret.
Qed.

Lemma post_mono {A} (m : M A) (s : St) (Q Q' : Result A → St → list Event → Prop) :
  post m s Q → (∀ r s' t, Q r s' t → Q' r s' t) → post m s Q'.
Proof. unfold post. auto. Qed.

Lemma post_flattenAndSetTags tagsMap (s : St) Q :
  (∀ d', Id d' = Id (data s) →
         app_settings (current d') = app_settings (current (data s)) →
         Q (Ok tt) {| data := d'; world := world s |} []) →
  post (flattenAndSetTags helpers tagsMap) s Q.
Proof.
  intros H. unfold flattenAndSetTags. apply post_bind, post_dSet.
  destruct (set_rejects helpers "tags"); apply post_ret; simpl.
  - destruct s; by apply H.
  - by apply H.
Qed.

(** The loop of flattenFunctionAppConnectionStrings builds no error value:
    it ends in a list or in a nil dereference. *)
Lemma flatten_entries_no_error kvs results e : flatten_entries kvs results ≠ Err e.
Proof.
  revert results. induction kvs as [|kv kvs IH]; intros results; simpl; [done|].
  unfold flatten_entry. destruct kv.2 as [v|]; [|done].
  destruct (pairValue v); [apply IH | done].
Qed.

Lemma expandFunctionAppAppSettings_total d :
  expandFunctionAppAppSettings helpers d = Ok (withImplicitSettings helpers d).
Proof. reflexivity. Qed.

Ltac wp_step :=
  lazymatch goal with
  | |- post (_ ≫= _) _ _ => apply post_bind
  | |- post (mret _) _ _ => apply post_ret
  | |- post (ret _) _ _ => apply post_ret
  | |- post (fail _) _ _ => apply post_fail
  | |- post (lift (expandFunctionAppAppSettings _ _)) _ _ =>
      rewrite expandFunctionAppAppSettings_total; apply post_lift
  | |- post (lift _) _ _ => apply post_lift
  | |- post getData _ _ => apply post_getData
  | |- post (modifyData _) _ _ => apply post_modifyData
  | |- post (check _ _) _ _ => apply post_check
  | |- post (call _ _) _ _ => apply post_call; intros ? ? ?
  | |- post (dSet _ _ _) _ _ => apply post_dSet_any; intros ? ? ?
  | |- post (dSetChecked _ _ _) _ _ => apply post_dSetChecked
  | |- post (flattenAndSetTags _ _) _ _ => apply post_flattenAndSetTags; intros ? ? ?
  | |- post (match ?x with _ => _ end) _ _ => destruct x eqn:?
  | |- match ?x with _ => _ end => destruct x eqn:?
  end; cbn beta iota zeta delta [fst snd app data world] in *.

Lemma Read_outcome d w :
  post (resourceArmFunctionAppRead client helpers) {| data := d; world := w |}
    (ReadOutcome client helpers d w).
Proof.
  unfold resourceArmFunctionAppRead.
  repeat wp_step.
  all: simplify_eq/=.
  all: try (econstructor; by eauto).
  all: try by (exfalso; eapply flatten_entries_no_error).
  all: try (eapply Read_stopped_before_configuration; by eauto 6).
  all: eapply Read_done; [by eauto..| simpl; congruence | done].
Qed.

Lemma trace_eq (P : list Event → Prop) t t' : P t → t = t' → P t'.
Proof. by intros ? <-. Qed.

Ltac rewrite_bools :=
  repeat match goal with
  | H : ?b = true |- context [?b] => rewrite H
  | H : ?b = false |- context [?b] => rewrite H
  end.

Tactic Notation "by_outcome" uconstr(C) :=
  simplify_eq/=;
  match goal with |- ?P ?t => eapply (trace_eq P) end;
  [eapply C; by eauto | by rewrite_bools].

Lemma Update_outcome d w :
  post (resourceArmFunctionAppUpdate client helpers) {| data := d; world := w |}
    (UpdateOutcome client helpers d w).
Proof.
  unfold resourceArmFunctionAppUpdate.
  do 3 wp_step; [|by constructor].
  fold (appSettingsChanged d).
  repeat wp_step.
  all: try (eapply post_mono; [apply Read_outcome|]; intros r' s' t' HR).
  all: first [ by_outcome Update_app_settings_failed
             | by_outcome Update_site_config_failed
             | by_outcome Update_connection_strings_failed
             | by_outcome Update_read ].
Qed.

Lemma Create_outcome d w :
  post (resourceArmFunctionAppCreate client helpers) {| data := d; world := w |}
    (CreateOutcome client helpers d w).
Proof.
  unfold resourceArmFunctionAppCreate.
  repeat wp_step.
  all: try (eapply post_mono; [apply Update_outcome|]; intros r' s' t' HU).
  all: simplify_eq/=.
  all: try (econstructor; by eauto).
  all: eapply Create_nil_dereference; [|done].
  all: unfold populated; intros Hp.
  all: repeat match goal with
       | H : ?x = _, Hp : context [?x] |- _ => rewrite H in Hp
       end.
  all: by destruct Hp.
Qed.

Lemma Delete_outcome d w :
  post (resourceArmFunctionAppDelete client helpers) {| data := d; world := w |}
    (DeleteOutcome client helpers d w).
Proof.
  unfold resourceArmFunctionAppDelete.
  repeat wp_step.
  all: simplify_eq/=.
  all: rewrite ?negb_true_iff, ?negb_false_iff in *.
  all: econstructor; by eauto.
Qed.

(** ** The expand/flatten helpers *)

(** C9. In the map built by expandFunctionAppAppSettings the five implicit
    keys carry the values derived from the configuration: the dashboard,
    storage and content-file connection keys hold storage_connection_string,
    FUNCTIONS_EXTENSION_VERSION holds version, WEBSITE_CONTENTSHARE holds
    name followed by "-content"; this holds whatever the user-supplied
    settings (the map of expandAppServiceAppSettings) say at these keys,
    and every other key is the user's. *)
Theorem expandFunctionAppAppSettings_implicit_values (d : ResourceData) :
  ∃ output,
    expandFunctionAppAppSettings helpers d = Ok output
    ∧ output !! "AzureWebJobsDashboard" = Some (Some (storage_connection_string (current d)))
    ∧ output !! "AzureWebJobsStorage" = Some (Some (storage_connection_string (current d)))
    ∧ output !! "WEBSITE_CONTENTAZUREFILECONNECTIONSTRING"
      = Some (Some (storage_connection_string (current d)))
    ∧ output !! "FUNCTIONS_EXTENSION_VERSION" = Some (Some (version (current d)))
    ∧ output !! "WEBSITE_CONTENTSHARE" = Some (Some (name (current d) +:+ "-content"))
    ∧ ∀ k, k ∉ implicit_keys → output !! k = expandAppServiceAppSettings helpers d !! k.
Proof.
  exists (withImplicitSettings helpers d). split; [reflexivity|].
  unfold withImplicitSettings.
  repeat split; try by simplify_map_eq.
  intros k Hk. unfold implicit_keys in Hk.
  rewrite !not_elem_of_cons in Hk. destruct Hk as (?&?&?&?&?&_).
  by rewrite !lookup_insert_ne.
Qed.

Lemma expand_entries (l : list ConnectionStringBlock)
  (output : gmap string (option ConnStringValueTypePair)) :
  NoDup (cs_name <$> l) →
  (∀ v, v ∈ l → output !! cs_name v = None) →
  map_to_list
    (foldl (λ output v,
              <[cs_name v := Some {| pairValue := Some (cs_value v);
                                     pairType := cs_type v |}]> output)
           output l)
  ≡ₚ (connectionStringEntry <$> l) ++ map_to_list output.
Proof.
  revert output. induction l as [|v l IH]; intros output Hnd Hfresh; [done|].
  apply NoDup_cons in Hnd as [Hv Hnd]. simpl.
  rewrite IH; [|done|].
  - rewrite map_to_list_insert by (apply Hfresh, list_elem_of_here).
    by rewrite <- Permutation_middle.
  - intros v' Hv'. rewrite lookup_insert_ne.
    + by apply Hfresh, list_elem_of_further.
    + intros Heq. apply Hv. rewrite Heq. by apply list_elem_of_fmap_2.
Qed.

Lemma flatten_entries_expanded (l results : list ConnectionStringBlock) :
  flatten_entries (connectionStringEntry <$> l) results = Ok (results ++ l).
Proof.
  revert results. induction l as [|[n ty v] l IH]; intros results; simpl.
  - by rewrite app_nil_r.
  - unfold flatten_entry. simpl. rewrite IH. by rewrite <- app_assoc.
Qed.

(** C7. For a list of connection-string blocks with pairwise distinct
    names, flattening the expanded map gives back the same name/value/type
    triples: the result is a permutation of the input, whatever the order in
    which the map is ranged over. *)
Theorem connection_strings_round_trip (d : ResourceData) :
  NoDup (cs_name <$> connection_string (current d)) →
  (∃ results,
     flattenFunctionAppConnectionStrings (expandFunctionAppConnectionStrings d) = Ok results
     ∧ results ≡ₚ connection_string (current d))
  ∧ (∀ order,
     order ≡ₚ map_to_list (expandFunctionAppConnectionStrings d) →
     ∃ results,
       flatten_entries order [] = Ok results
       ∧ results ≡ₚ connection_string (current d)).
Proof.
  intros Hnd.
  assert (∀ order,
     order ≡ₚ map_to_list (expandFunctionAppConnectionStrings d) →
     ∃ results,
       flatten_entries order [] = Ok results
       ∧ results ≡ₚ connection_string (current d)) as Hany.
  { intros order Horder.
    unfold expandFunctionAppConnectionStrings in Horder.
    rewrite expand_entries in Horder; [|done|by intros; apply lookup_empty].
    rewrite map_to_list_empty, app_nil_r in Horder.
    apply Permutation_map_inv in Horder as (l' & -> & Hl').
    exists l'. split; [apply flatten_entries_expanded | by symmetry]. }
  split; [|done]. by apply Hany.
Qed.

(** ** The runs of the four operations *)

Lemma Read_run d w :
  ReadOutcome client helpers d w
    (outcome (resourceArmFunctionAppRead client helpers) d w)
    (final (resourceArmFunctionAppRead client helpers) d w)
    (trace (resourceArmFunctionAppRead client helpers) d w).
Proof. apply Read_outcome. Qed.

Lemma Update_run d w :
  UpdateOutcome client helpers d w
    (outcome (resourceArmFunctionAppUpdate client helpers) d w)
    (final (resourceArmFunctionAppUpdate client helpers) d w)
    (trace (resourceArmFunctionAppUpdate client helpers) d w).
Proof. apply Update_outcome. Qed.

Lemma Create_run d w :
  CreateOutcome client helpers d w
    (outcome (resourceArmFunctionAppCreate client helpers) d w)
    (final (resourceArmFunctionAppCreate client helpers) d w)
    (trace (resourceArmFunctionAppCreate client helpers) d w).
Proof. apply Create_outcome. Qed.

Lemma Delete_run d w :
  DeleteOutcome client helpers d w
    (outcome (resourceArmFunctionAppDelete client helpers) d w)
    (final (resourceArmFunctionAppDelete client helpers) d w)
    (trace (resourceArmFunctionAppDelete client helpers) d w).
Proof. apply Delete_outcome. Qed.

(** Read only reads, and Update only updates and reads. *)
Ltac in_list := simpl; solve [repeat constructor].

Lemma Read_methods d w r s t :
  ReadOutcome client helpers d w r s t →
  Forall (λ ev, event_method ev ∈ read_methods) t.
Proof.
  unfold read_methods.
  destruct 1; repeat (apply Forall_cons; split; [in_list|]); apply Forall_nil_2.
Qed.

Lemma issued_methods (P : Event → Prop) changed ev :
  P ev → Forall P (issued changed ev).
Proof. intros. destruct changed; simpl; repeat constructor; done. Qed.

Lemma Update_methods d w r s t :
  UpdateOutcome client helpers d w r s t →
  Forall (λ ev, event_method ev ∈ update_methods ++ read_methods) t.
Proof.
  unfold read_methods, update_methods.
  destruct 1; rewrite ?Forall_app;
    repeat split; try (apply issued_methods; in_list);
    try (repeat (apply Forall_cons; split; [in_list|]); apply Forall_nil_2).
  eapply Forall_impl; [by eapply Read_methods|].
  intros ev Hev. do 3 apply list_elem_of_further. exact Hev.
Qed.

Lemma elem_of_issued changed (ev ev' : Event) :
  ev' ∈ issued changed ev → changed = true ∧ ev' = ev.
Proof.
  destruct changed; simpl; [|by intros ?%elem_of_nil].
  intros [->|?%elem_of_nil]%elem_of_cons; done.
Qed.

Lemma method_of_elem (ms : list Method) t ev :
  Forall (λ ev, event_method ev ∈ ms) t → ev ∈ t → event_method ev ∈ ms.
Proof. rewrite Forall_forall. auto. Qed.

(** Case analysis on the membership of an event in a trace. *)
Ltac elem_cases H :=
  repeat first
    [ apply elem_of_nil in H; destruct H
    | apply elem_of_cons in H as [H|H]
    | apply elem_of_app in H as [H|H]
    | apply elem_of_issued in H as [? H] ];
  unfold appSettingsCall, siteConfigCall, connectionStringsCall in *;
  simplify_eq/=.

(** An event of a method that the rest of the trace cannot hold. *)
Ltac absurd_method H :=
  first [ eapply method_of_elem in H; [|eapply Read_methods; eassumption]
        | eapply method_of_elem in H; [|eapply Update_methods; eassumption] ];
  simpl in H; elem_cases H.


(** ** The implicit application settings *)

Lemma withImplicitSettings_has_keys d :
  has_implicit_keys (withImplicitSettings helpers d).
Proof.
  unfold has_implicit_keys, implicit_keys, withImplicitSettings.
  repeat (apply Forall_cons; split; [eexists; by simplify_map_eq|]).
  apply Forall_nil_2.
Qed.

Lemma strippedAppSettings_lacks_keys props :
  lacks_implicit_keys (strippedAppSettings helpers props).
Proof.
  unfold lacks_implicit_keys, implicit_keys, strippedAppSettings.
  repeat (apply Forall_cons; split; [by simplify_map_eq|]).
  apply Forall_nil_2.
Qed.

Lemma Update_sends_implicit_keys d w r s t resGroup n settings err :
  UpdateOutcome client helpers d w r s t →
  EvUpdateApplicationSettings resGroup n settings err ∈ t →
  has_implicit_keys (sdProperties settings).
Proof.
  destruct 1; intros Hev; elem_cases Hev;
    try apply withImplicitSettings_has_keys; absurd_method Hev.
Qed.

(** C1. Every application-settings map that Update sends to the remote API
    (in an apply that updates, and in the Update that ends a Create) holds
    the five implicit keys AzureWebJobsDashboard, AzureWebJobsStorage,
    FUNCTIONS_EXTENSION_VERSION, WEBSITE_CONTENTSHARE and
    WEBSITE_CONTENTAZUREFILECONNECTIONSTRING; and after a Read that returns
    no error, either the resource was found and the app_settings stored in
    the configuration hold none of the five, or the get call was answered
    not-found and Read stored nothing (it only emptied the id). *)
Theorem implicit_keys_sent_and_stripped (d : ResourceData) (w : W) :
  (∀ resGroup n settings err,
     EvUpdateApplicationSettings resGroup n settings err
       ∈ trace (resourceArmFunctionAppUpdate client helpers) d w →
     has_implicit_keys (sdProperties settings))
  ∧ (∀ resGroup n settings err,
     EvUpdateApplicationSettings resGroup n settings err
       ∈ trace (resourceArmFunctionAppCreate client helpers) d w →
     has_implicit_keys (sdProperties settings))
  ∧ (outcome (resourceArmFunctionAppRead client helpers) d w = Ok tt →
     ((∃ resGroup n resp,
         EvGet resGroup n resp None ∈ trace (resourceArmFunctionAppRead client helpers) d w)
      ∧ lacks_implicit_keys
          (app_settings (current (data (final (resourceArmFunctionAppRead client helpers) d w)))))
     ∨ ((∃ resGroup n resp e,
           trace (resourceArmFunctionAppRead client helpers) d w
             = [EvGet resGroup n resp (Some e)]
           ∧ ResponseWasNotFound helpers (siteResponse resp) = true)
        ∧ data (final (resourceArmFunctionAppRead client helpers) d w) = SetId "" d)).
Proof.
  split; [|split].
  - intros ????. eapply Update_sends_implicit_keys, Update_run.
  - intros resGroup n settings err Hev.
    destruct (Create_run d w); elem_cases Hev.
    by eapply Update_sends_implicit_keys.
  - destruct (Read_run d w); intros Hok; try discriminate.
    + right. split; [by eauto 6|done].
    + match goal with H : _ ∨ _ |- _ => destruct H as [?|(?&?&?&?)] end; simplify_eq.
    + left. split; [eexists _, _, _; by apply list_elem_of_here|].
      match goal with H : app_settings _ = _ |- _ => rewrite H end.
      apply strippedAppSettings_lacks_keys.
Qed.

(** ** Delete *)

(** C6. Every remote call Delete issues is the delete call with
    delete-metrics true and delete-empty-server-farm false, and it is issued
    once the stored id has been parsed; Delete returns no error when the
    call succeeds or comes back not-found, and returns the call's error in
    every other case. *)
Theorem delete_fixed_flags_and_not_found (d : ResourceData) (w : W) :
  let r := outcome (resourceArmFunctionAppDelete client helpers) d w in
  let t := trace (resourceArmFunctionAppDelete client helpers) d w in
  (∀ ev, ev ∈ t →
     ∃ resGroup n resp err, ev = EvDelete resGroup n (Some true) (Some false) resp err)
  ∧ (∀ id, parseAzureResourceID helpers (Id d) = inl id →
     ∃ resp err,
       t = [EvDelete (ResourceGroup id) (at_key (Path id) "sites")
              (Some true) (Some false) resp err])
  ∧ (∀ resGroup n dm de resp,
     EvDelete resGroup n dm de resp None ∈ t → r = Ok tt)
  ∧ (∀ resGroup n dm de resp e,
     EvDelete resGroup n dm de resp (Some e) ∈ t →
     ResponseWasNotFound helpers resp = true → r = Ok tt)
  ∧ (∀ resGroup n dm de resp e,
     EvDelete resGroup n dm de resp (Some e) ∈ t →
     ResponseWasNotFound helpers resp = false → r = Err e).
Proof.
  intros r t. pose proof (Delete_run d w) as HD. fold r t in HD. clearbody r t.
  repeat split.
  - intros ev Hev. destruct HD; elem_cases Hev; by eexists _, _, _, _.
  - intros id Hid. destruct HD; rewrite Hid in *; simplify_eq; by eexists _, _.
  - intros ? ? ? ? ? Hev. destruct HD; by elem_cases Hev.
  - intros ? ? ? ? ? ? Hev Hnf. destruct HD; elem_cases Hev; congruence.
  - intros ? ? ? ? ? ? Hev Hnf. destruct HD; elem_cases Hev; congruence.
Qed.

(** ** Create *)


(** C10. Create reads NameAvailable, and for an unavailable name Message,
    through the pointers of the availability response without a nil check:
    after a successful availability call, Create ends in a nil dereference
    right there exactly when the response is not populated, that is, when
    NameAvailable is nil, or it is false and Message is nil. *)
Theorem create_nil_dereference_iff_unpopulated (d : ResourceData) (w : W) :
  let r := outcome (resourceArmFunctionAppCreate client helpers) d w in
  let t := trace (resourceArmFunctionAppCreate client helpers) d w in
  ∀ request available,
    EvCheckNameAvailability request available None ∈ t →
    (r = Panic ∧ t = [EvCheckNameAvailability request available None])
    ↔ ¬ populated available.
Proof.
  intros r t. pose proof (Create_run d w) as HC. fold r t in HC. clearbody r t.
  intros request available Hev.
  destruct HC; elem_cases Hev; try absurd_method Hev.
  all: split; [intros [? ?]; simplify_eq; try done|intros Hp].
  all: try done.
  all: exfalso; apply Hp; unfold populated;
    repeat match goal with H : ?x = _ |- context [?x] => rewrite H end; by eauto.
Qed.

(** ** Update *)

Lemma called_nil m : called m [] ↔ False.
Proof. unfold called. split; [intros (ev & Hev & _); by elem_cases Hev | done]. Qed.

Lemma called_cons m ev t : called m (ev :: t) ↔ event_method ev = m ∨ called m t.
Proof.
  unfold called. split.
  - intros (ev' & [->|Hev]%elem_of_cons & Hm); [by left | right; by eauto].
  - intros [Hm|(ev' & Hev & Hm)]; [exists ev | exists ev'];
      (split; [|done]); apply elem_of_cons; by eauto.
Qed.

Lemma called_app m t1 t2 : called m (t1 ++ t2) ↔ called m t1 ∨ called m t2.
Proof.
  induction t1 as [|ev t1 IH]; simpl.
  - rewrite called_nil. tauto.
  - rewrite !called_cons, IH. tauto.
Qed.

Lemma called_issued m changed ev :
  called m (issued changed ev) ↔ changed = true ∧ event_method ev = m.
Proof.
  destruct changed; simpl; rewrite ?called_cons, called_nil; intuition congruence.
Qed.

Lemma failed_nil m : failed m [] ↔ False.
Proof. unfold failed. split; [intros (ev & e & Hev & _); by elem_cases Hev | done]. Qed.

Lemma failed_cons m ev t :
  failed m (ev :: t)
  ↔ (event_method ev = m ∧ ∃ e, event_error ev = Some e) ∨ failed m t.
Proof.
  unfold failed. split.
  - intros (ev' & e & [->|Hev]%elem_of_cons & Hm & He); [left; by eauto | right; by eauto].
  - intros [[Hm [e He]]|(ev' & e & Hev & Hm & He)]; [exists ev, e | exists ev', e];
      (split; [|done]); apply elem_of_cons; by eauto.
Qed.

Lemma failed_app m t1 t2 : failed m (t1 ++ t2) ↔ failed m t1 ∨ failed m t2.
Proof.
  induction t1 as [|ev t1 IH]; simpl.
  - rewrite failed_nil. tauto.
  - rewrite !failed_cons, IH. tauto.
Qed.

Lemma failed_issued m changed ev :
  failed m (issued changed ev)
  ↔ changed = true ∧ event_method ev = m ∧ ∃ e, event_error ev = Some e.
Proof.
  destruct changed; simpl; rewrite ?failed_cons, failed_nil; intuition congruence.
Qed.

Lemma failed_called m t : failed m t → called m t.
Proof. intros (ev & e & ? & ? & ?). by exists ev. Qed.

Lemma Read_calls_no_update d w r s t :
  ReadOutcome client helpers d w r s t →
  ¬ called MUpdateApplicationSettings t
  ∧ ¬ called MCreateOrUpdateConfiguration t
  ∧ ¬ called MUpdateConnectionStrings t.
Proof.
  intros HR. repeat split; intros (ev & Hev & Hm); absurd_method Hev; congruence.
Qed.

Ltac unfold_calls :=
  rewrite ?called_app, ?called_cons, ?called_issued, ?called_nil,
    ?failed_app, ?failed_cons, ?failed_issued, ?failed_nil;
  unfold appSettingsCall, siteConfigCall, connectionStringsCall; simpl.

Lemma Update_calls d w r s t :
  UpdateOutcome client helpers d w r s t →
  (called MUpdateApplicationSettings t
   ↔ parses helpers d ∧ (HasChange app_settings d = true ∨ HasChange version d = true))
  ∧ (called MCreateOrUpdateConfiguration t
     ↔ parses helpers d ∧ HasChange site_config d = true
       ∧ ¬ failed MUpdateApplicationSettings t)
  ∧ (called MUpdateConnectionStrings t
     ↔ parses helpers d ∧ HasChange connection_string d = true
       ∧ ¬ failed MUpdateApplicationSettings t
       ∧ ¬ failed MCreateOrUpdateConfiguration t).
Proof.
  intros HU. unfold parses.
  rewrite <- orb_true_iff. fold (appSettingsChanged d).
  destruct HU as [e Hid|id e s Hid Hc Hs|id e s Hid Hc Hs|id e s Hid Hc Hs|id w3 r s tR Hid HR].
  5: { destruct (Read_calls_no_update _ _ _ _ _ HR) as (N1 & N2 & N3).
       pose proof (failed_called MUpdateApplicationSettings tR).
       pose proof (failed_called MCreateOrUpdateConfiguration tR).
       unfold_calls.
       destruct (appSettingsChanged d), (HasChange site_config d),
         (HasChange connection_string d); naive_solver. }
  all: rewrite ?Hid; unfold_calls.
  all: destruct (appSettingsChanged d), (HasChange site_config d),
         (HasChange connection_string d); naive_solver.
Qed.

(** C3, as the code has it.  With a stored id that parses, Update issues
    the application-settings update exactly when app_settings or version
    changed; the site-configuration update exactly when site_config changed
    and the application-settings update did not fail; the connection-string
    update exactly when connection_string changed and neither earlier update
    failed.  Without a parsable id no update call is issued. *)
Theorem update_calls_follow_changes (d : ResourceData) (w : W) :
  let t := trace (resourceArmFunctionAppUpdate client helpers) d w in
  (called MUpdateApplicationSettings t
   ↔ parses helpers d ∧ (HasChange app_settings d = true ∨ HasChange version d = true))
  ∧ (called MCreateOrUpdateConfiguration t
     ↔ parses helpers d ∧ HasChange site_config d = true
       ∧ ¬ failed MUpdateApplicationSettings t)
  ∧ (called MUpdateConnectionStrings t
     ↔ parses helpers d ∧ HasChange connection_string d = true
       ∧ ¬ failed MUpdateApplicationSettings t
       ∧ ¬ failed MCreateOrUpdateConfiguration t).
Proof. intros t. eapply Update_calls, Update_run. Qed.

Lemma Update_failure_is_last d w r s t ev e :
  UpdateOutcome client helpers d w r s t →
  ev ∈ t →
  event_method ev ∈ update_methods →
  event_error ev = Some e →
  (∃ earlier,
     t = earlier ++ [ev]
     ∧ Forall (λ ev', event_method ev' ∈ update_methods ∧ event_error ev' = None) earlier)
  ∧ (∃ e', r = Err e' ∧ wrapped (update_context (event_method ev)) ev e e')
  ∧ data s = d.
Proof.
  intros HU Hev Hm He.
  destruct HU; elem_cases Hev.
  all: try (absurd_method Hev; rewrite Hev in Hm; by elem_cases Hm).
  - split; [exists []; by split|]. split; [|done].
    eexists. split; [done|]. by eexists.
  - split; [eexists; split; [done|]; apply issued_methods; split; [in_list|done]|].
    split; [|done]. eexists. split; [done|]. by eexists.
  - split.
    { eexists (_ ++ _). split; [by rewrite <- app_assoc|].
      apply Forall_app; split; apply issued_methods; split; solve [in_list|done]. }
    split; [|done]. eexists. split; [done|]. by eexists.
Qed.

(** C4. When one of the three targeted update calls of Update fails, the
    failing call is the last remote call of the run: what precedes it are
    only targeted update calls that succeeded, nothing follows it (no later
    update, no call of the final Read, no call undoing the earlier updates),
    the configuration is left as it was, and Update returns an error, the
    failure wrapped with the name of the resource. *)
Theorem update_stops_at_failed_call (d : ResourceData) (w : W) :
  let r := outcome (resourceArmFunctionAppUpdate client helpers) d w in
  let s := final (resourceArmFunctionAppUpdate client helpers) d w in
  let t := trace (resourceArmFunctionAppUpdate client helpers) d w in
  ∀ ev e,
    ev ∈ t →
    event_method ev ∈ update_methods →
    event_error ev = Some e →
    (∃ earlier,
       t = earlier ++ [ev]
       ∧ Forall (λ ev', event_method ev' ∈ update_methods ∧ event_error ev' = None) earlier)
    ∧ (∃ e', r = Err e' ∧ wrapped (update_context (event_method ev)) ev e e')
    ∧ data s = d.
Proof. intros r s t ev e. eapply Update_failure_is_last, Update_run. Qed.

(** ** How remote failures reach the caller *)

Lemma Read_failures_wrapped d w r s t ev e e' :
  ReadOutcome client helpers d w r s t →
  ev ∈ t → event_error ev = Some e → r = Err e' →
  wrapped (read_context (event_method ev)) ev e e'.
Proof.
  intros HR Hev He Hr.
  destruct HR; elem_cases Hev; by eexists.
Qed.

Lemma Update_failures_wrapped d w r s t ev e e' :
  UpdateOutcome client helpers d w r s t →
  ev ∈ t → event_error ev = Some e → r = Err e' →
  wrapped (update_context (event_method ev)) ev e e'.
Proof.
  intros HU Hev He Hr.
  destruct HU as [| | | |id w3 r s tR Hid HR]; elem_cases Hev; try by eexists.
  pose proof (Read_failures_wrapped _ _ _ _ _ _ _ _ HR Hev He eq_refl) as Hw.
  pose proof Hev as Hm. absurd_method Hm; by rewrite Hm in *.
Qed.

(** C8, as the code has it.  A remote failure that Read or Update returns
    is wrapped: the error is built from a format string naming the
    operation, the resource name and the failure.  In Create only the
    failure of the first call (the availability check) and the failures of
    the Update that ends it are wrapped; a failure of its second, third or
    fourth call (create-or-update, wait for completion, get) is returned as
    it came.  Delete returns the failure of its delete call as it came. *)
Theorem remote_failures_wrapped_or_returned (d : ResourceData) (w : W) :
  (∀ ev e e',
     ev ∈ trace (resourceArmFunctionAppRead client helpers) d w →
     event_error ev = Some e →
     outcome (resourceArmFunctionAppRead client helpers) d w = Err e' →
     wrapped (read_context (event_method ev)) ev e e')
  ∧ (∀ ev e e',
     ev ∈ trace (resourceArmFunctionAppUpdate client helpers) d w →
     event_error ev = Some e →
     outcome (resourceArmFunctionAppUpdate client helpers) d w = Err e' →
     wrapped (update_context (event_method ev)) ev e e')
  ∧ (∀ (i : nat) ev e e',
     trace (resourceArmFunctionAppCreate client helpers) d w !! i = Some ev →
     event_error ev = Some e →
     outcome (resourceArmFunctionAppCreate client helpers) d w = Err e' →
     match i with
     | 0 => wrapped (Some "Error checking if the name %q was available: %+v") ev e e'
     | 1 | 2 | 3 => e' = e
     | _ => wrapped (update_context (event_method ev)) ev e e'
     end)
  ∧ (∀ ev e e',
     ev ∈ trace (resourceArmFunctionAppDelete client helpers) d w →
     event_error ev = Some e →
     outcome (resourceArmFunctionAppDelete client helpers) d w = Err e' →
     e' = e).
Proof.
  split; [|split; [|split]].
  - intros ev e e'. eapply Read_failures_wrapped, Read_run.
  - intros ev e e'. eapply Update_failures_wrapped, Update_run.
  - intros i ev e e'.
    destruct (Create_run d w); intros Hi He Hr;
      destruct i as [|[|[|[|i]]]]; simplify_eq/=; try by eexists.
    eapply Update_failures_wrapped; [eassumption| |done..].
    by eapply list_elem_of_lookup_2.
  - intros ev e e'.
    destruct (Delete_run d w); intros Hev He Hr; by elem_cases Hev.
Qed.

(** * Further properties of the helpers *)

(** ** Site configuration *)

(** X1. Over the [site_config] lists the schema can hand to the code (no
    block, or a first block with its three keys), expanding and flattening
    the result gives back one block: the first block of the list (later
    blocks are never read), and for an empty list one block without any key
    rather than the empty list, which flatten only returns for a nil
    configuration.  In the other direction, for a remote configuration
    with none of its three flags nil, expanding the block flatten built
    restores the three flags and leaves AppSettings nil. *)
Theorem site_config_round_trip :
  (∀ d : ResourceData,
     site_config (current d) = [] →
     flattenFunctionAppSiteConfig (Some (expandFunctionAppSiteConfig d))
     = [{| always_on := None; use_32_bit_worker_process := None;
           websockets_enabled := None |}])
  ∧ (∀ (d : ResourceData) (config : SiteConfigBlock) (rest : list SiteConfigBlock),
     site_config (current d) = config :: rest →
     completeBlock config →
     flattenFunctionAppSiteConfig (Some (expandFunctionAppSiteConfig d)) = [config])
  ∧ (∀ (d : ResourceData) (input : SiteConfig),
     completeSiteConfig input →
     site_config (current d) = flattenFunctionAppSiteConfig (Some input) →
     expandFunctionAppSiteConfig d
     = {| AppSettings := None;
          AlwaysOn := AlwaysOn input;
          Use32BitWorkerProcess := Use32BitWorkerProcess input;
          WebSocketsEnabled := WebSocketsEnabled input |})
  ∧ (∀ input, flattenFunctionAppSiteConfig input = [] ↔ input = None).
Proof.
  split; [|split; [|split]].
  - intros d Hd. unfold expandFunctionAppSiteConfig. by rewrite Hd.
  - intros d config rest Hd _. unfold expandFunctionAppSiteConfig. rewrite Hd.
    by destruct config.
  - intros d input _ Hd. unfold expandFunctionAppSiteConfig. by rewrite Hd.
  - intros [input|]; by split.
Qed.

(** ** Connection strings *)

Lemma lastNamed_cons n v l :
  lastNamed n (v :: l)
  = match lastNamed n l with
    | Some v' => Some v'
    | None => if decide (cs_name v = n) then Some v else None
    end.
Proof.
  unfold lastNamed. rewrite filter_cons.
  destruct (decide (cs_name v = n)); [|by destruct (last _)].
  by rewrite last_cons.
Qed.

Lemma expand_lookup_from (l : list ConnectionStringBlock)
  (output : gmap string (option ConnStringValueTypePair)) (n : string) :
  foldl (λ output v,
           <[cs_name v := Some {| pairValue := Some (cs_value v);
                                  pairType := cs_type v |}]> output)
        output l !! n
  = match lastNamed n l with
    | Some v => Some (connectionStringEntry v).2
    | None => output !! n
    end.
Proof.
  revert output. induction l as [|v l IH]; intros output; [done|].
  simpl. rewrite IH, lastNamed_cons.
  destruct (lastNamed n l); [done|].
  destruct (decide (cs_name v = n)) as [<-|Hne].
  - by rewrite lookup_insert_eq.
  - by rewrite lookup_insert_ne.
Qed.

Lemma expand_lookup (d : ResourceData) (n : string) :
  expandFunctionAppConnectionStrings d !! n
  = (λ v, Some {| pairValue := Some (cs_value v); pairType := cs_type v |})
      <$> lastNamed n (connection_string (current d)).
Proof.
  unfold expandFunctionAppConnectionStrings. rewrite expand_lookup_from.
  by destruct (lastNamed _ _).
Qed.

(** X2. In the map built by expandFunctionAppConnectionStrings a name is
    bound exactly when some block carries it, and it is bound to the value
    and type of the last such block: with repeated names the later block
    silently replaces the earlier ones. *)
Theorem expand_connection_strings_last_wins (d : ResourceData) (n : string) :
  expandFunctionAppConnectionStrings d !! n
  = (λ v, Some {| pairValue := Some (cs_value v); pairType := cs_type v |})
      <$> lastNamed n (connection_string (current d)).
Proof. apply expand_lookup. Qed.

Lemma flatten_entry_readable kv :
  readable kv.2 → flatten_entry kv = Ok (entryBlock kv).
Proof.
  destruct kv as [k o]. simpl. intros (v & value & -> & Hvalue).
  unfold flatten_entry, entryBlock. simpl. by rewrite Hvalue.
Qed.

Lemma flatten_entry_unreadable kv :
  ¬ readable kv.2 → flatten_entry kv = Panic.
Proof.
  destruct kv as [k [[[value|] ty]|]]; intros Hnot; try done.
  exfalso. apply Hnot. by eexists _, _.
Qed.

Lemma flatten_entries_cons kv kvs results :
  flatten_entries (kv :: kvs) results
  = match flatten_entry kv with
    | Ok result => flatten_entries kvs (results ++ [result])
    | Err e => Err e
    | Panic => Panic
    end.
Proof. done. Qed.

Lemma flatten_entries_readable kvs results :
  Forall (λ kv, readable kv.2) kvs →
  flatten_entries kvs results = Ok (results ++ (entryBlock <$> kvs)).
Proof.
  intros Hall. revert results.
  induction Hall as [|kv kvs Hkv _ IH]; intros results.
  - simpl. by rewrite app_nil_r.
  - rewrite flatten_entries_cons, flatten_entry_readable by done.
    rewrite IH. by rewrite <- app_assoc.
Qed.

Lemma flatten_entries_unreadable kvs results :
  Exists (λ kv, ¬ readable kv.2) kvs →
  flatten_entries kvs results = Panic.
Proof.
  intros Hex. revert results.
  induction Hex as [kv kvs Hkv|kv kvs _ IH]; intros results;
    rewrite flatten_entries_cons.
  - by rewrite flatten_entry_unreadable.
  - destruct (decide (readable kv.2)) as [Hr|Hr].
    + rewrite flatten_entry_readable by done. apply IH.
    + by rewrite flatten_entry_unreadable.
Qed.

Lemma flatten_cases (input : gmap string (option ConnStringValueTypePair)) :
  (flattenFunctionAppConnectionStrings input = Ok (entryBlock <$> map_to_list input)
   ∧ ∀ k o, input !! k = Some o → readable o)
  ∨ (flattenFunctionAppConnectionStrings input = Panic
     ∧ ∃ k o, input !! k = Some o ∧ ¬ readable o).
Proof.
  unfold flattenFunctionAppConnectionStrings.
  destruct (Forall_Exists_dec (λ kv : string * option ConnStringValueTypePair, readable kv.2)
              (λ kv, ¬ readable kv.2) (λ kv, decide (readable kv.2)) (map_to_list input))
    as [Hall|Hex].
  - left. rewrite flatten_entries_readable by done. split; [done|].
    intros k o Hk. rewrite Forall_forall in Hall.
    by apply (Hall (k, o)), elem_of_map_to_list.
  - right. rewrite flatten_entries_unreadable by done. split; [done|].
    apply Exists_exists in Hex as ([k o] & Hin & Hnot).
    exists k, o. split; [by apply elem_of_map_to_list|done].
Qed.

(** X3. flattenFunctionAppConnectionStrings ends in a nil dereference
    exactly when the map holds a nil pair or a pair with a nil value; it
    never builds an error; on every other map it returns one block per key,
    carrying the key as name and the pair's type and value. *)
Theorem flatten_connection_strings_outcome
  (input : gmap string (option ConnStringValueTypePair)) :
  (flattenFunctionAppConnectionStrings input = Panic
   ↔ ∃ k o, input !! k = Some o ∧ ¬ readable o)
  ∧ (∀ e, flattenFunctionAppConnectionStrings input ≠ Err e)
  ∧ (∀ results,
     flattenFunctionAppConnectionStrings input = Ok results →
     results = entryBlock <$> map_to_list input
     ∧ (∀ k o, input !! k = Some o → readable o)).
Proof.
  destruct (flatten_cases input) as [[-> Hall]|[-> (k & o & Hk & Hnot)]].
  - split; [|split]; try done.
    + split; [done|]. intros (k & o & Hk & Hnot). exfalso. by apply Hnot, (Hall k).
    + by intros results [= <-].
  - split; [|split]; try done. split; [|done]. intros _. by exists k, o.
Qed.

Lemma connectionStringEntry_entryBlock kv :
  readable kv.2 → connectionStringEntry (entryBlock kv) = kv.
Proof.
  destruct kv as [k o]. simpl. intros ([value' ty] & value & -> & Hvalue).
  simpl in *. by subst.
Qed.

Lemma entryBlock_connectionStringEntry v : entryBlock (connectionStringEntry v) = v.
Proof. by destruct v. Qed.

(** X4. Flattening a map all of whose entries can be read and expanding the
    blocks again gives back the same map: what Read stores under
    [connection_string] is expanded by the next Update to the very map the
    remote API returned. *)
Theorem connection_strings_expand_flatten
  (input : gmap string (option ConnStringValueTypePair)) :
  (∀ k o, input !! k = Some o → readable o) →
  ∃ results,
    flattenFunctionAppConnectionStrings input = Ok results
    ∧ ∀ d : ResourceData,
        connection_string (current d) = results →
        expandFunctionAppConnectionStrings d = input.
Proof.
  intros Hreadable.
  assert (Forall (λ kv : string * option ConnStringValueTypePair, readable kv.2)
            (map_to_list input)) as Hall.
  { apply Forall_forall. intros [k o] Hin. by apply (Hreadable k), elem_of_map_to_list. }
  exists (entryBlock <$> map_to_list input). split.
  { unfold flattenFunctionAppConnectionStrings. by rewrite flatten_entries_readable. }
  intros d Hd. apply map_to_list_inj.
  unfold expandFunctionAppConnectionStrings. rewrite Hd.
  rewrite expand_entries.
  - rewrite map_to_list_empty, app_nil_r, <- list_fmap_compose.
    rewrite (Forall_fmap_ext_1 (connectionStringEntry ∘ entryBlock) id).
    + by rewrite list_fmap_id.
    + eapply Forall_impl; [exact Hall|]. intros kv Hkv. simpl.
      by apply connectionStringEntry_entryBlock.
  - rewrite <- list_fmap_compose.
    change (cs_name ∘ entryBlock) with (fst : string * option ConnStringValueTypePair → string).
    apply NoDup_fst_map_to_list.
  - intros; apply lookup_empty.
Qed.

(** X5. For every list of blocks, repeated names or not, flattening the
    expanded map returns without a nil dereference; the names of the result
    are pairwise distinct, and a block is in the result exactly when it is
    the last block of the input with its name. *)
Theorem connection_strings_flatten_expand_any (d : ResourceData) :
  ∃ results,
    flattenFunctionAppConnectionStrings (expandFunctionAppConnectionStrings d) = Ok results
    ∧ NoDup (cs_name <$> results)
    ∧ ∀ b, b ∈ results ↔ lastNamed (cs_name b) (connection_string (current d)) = Some b.
Proof.
  assert (∀ k o, expandFunctionAppConnectionStrings d !! k = Some o → readable o) as Hr.
  { intros k o. rewrite expand_lookup.
    destruct (lastNamed _ _); intros [= <-]. by eexists _, _. }
  exists (entryBlock <$> map_to_list (expandFunctionAppConnectionStrings d)).
  split; [|split].
  - unfold flattenFunctionAppConnectionStrings. rewrite flatten_entries_readable; [done|].
    apply Forall_forall. intros [k o] Hin. by apply (Hr k), elem_of_map_to_list.
  - rewrite <- list_fmap_compose.
    change (cs_name ∘ entryBlock) with (fst : string * option ConnStringValueTypePair → string).
    apply NoDup_fst_map_to_list.
  - intros b. rewrite list_elem_of_fmap. split.
    + intros ([k o] & -> & Hin). apply elem_of_map_to_list in Hin.
      rewrite expand_lookup in Hin. simpl.
      destruct (lastNamed k _) as [v|] eqn:Hlast; simplify_eq/=.
      unfold entryBlock. simpl.
      assert (cs_name v = k) as <-.
      { unfold lastNamed in Hlast. apply last_Some_elem_of, list_elem_of_filter in Hlast.
        by destruct Hlast. }
      by destruct v.
    + intros Hlast. exists (connectionStringEntry b). split.
      * by rewrite entryBlock_connectionStringEntry.
      * apply elem_of_map_to_list. rewrite expand_lookup.
        by rewrite Hlast.
Qed.

(** * Further properties of the operations *)

Lemma Read_order d w r s t :
  ReadOutcome client helpers d w r s t → event_method <$> t `prefix_of` read_methods.
Proof. destruct 1; simpl; by eexists. Qed.

Lemma Update_order d w r s t :
  UpdateOutcome client helpers d w r s t → update_shaped (event_method <$> t).
Proof.
  unfold update_shaped, update_methods.
  destruct 1 as [| | | |id w3 r s tR Hid HR].
  - exists [], []. split; [done|]. split; [solve [repeat constructor]|by eexists].
  - exists [MUpdateApplicationSettings], []. split; [done|].
    split; [solve [repeat constructor]|by eexists].
  - exists (event_method <$>
              issued (appSettingsChanged d) (appSettingsCall helpers d id None)
              ++ [siteConfigCall d id (Some e)]), [].
    split; [by rewrite app_nil_r|]. split; [|by eexists].
    destruct (appSettingsChanged d); simpl; solve [repeat constructor].
  - exists (event_method <$>
              issued (appSettingsChanged d) (appSettingsCall helpers d id None)
              ++ issued (HasChange site_config d) (siteConfigCall d id None)
              ++ [connectionStringsCall d id (Some e)]), [].
    split; [by rewrite app_nil_r|]. split; [|by eexists].
    destruct (appSettingsChanged d), (HasChange site_config d); simpl;
      solve [repeat constructor].
  - exists (event_method <$>
              issued (appSettingsChanged d) (appSettingsCall helpers d id None)
              ++ issued (HasChange site_config d) (siteConfigCall d id None)
              ++ issued (HasChange connection_string d) (connectionStringsCall d id None)),
           (event_method <$> tR).
    split; [by rewrite !fmap_app, <- !app_assoc|].
    split; [|by eapply Read_order].
    destruct (appSettingsChanged d), (HasChange site_config d),
      (HasChange connection_string d); simpl; solve [repeat constructor].
Qed.

(** X6. The remote calls of each operation come in a fixed order.  Read
    issues a beginning of get, list application settings, list connection
    strings, get configuration.  Update issues some of its three targeted
    updates, each at most once and in the order application settings, site
    configuration, connection strings, then a beginning of the calls of
    Read.  Create issues a beginning of check name availability,
    create-or-update, wait for completion, get, and only after all four the
    calls of an Update.  Delete issues at most its one delete call. *)
Theorem calls_in_fixed_order (d : ResourceData) (w : W) :
  event_method <$> trace (resourceArmFunctionAppRead client helpers) d w
    `prefix_of` read_methods
  ∧ update_shaped (event_method <$> trace (resourceArmFunctionAppUpdate client helpers) d w)
  ∧ (event_method <$> trace (resourceArmFunctionAppCreate client helpers) d w
       `prefix_of` create_methods
     ∨ ∃ rest,
         event_method <$> trace (resourceArmFunctionAppCreate client helpers) d w
         = create_methods ++ rest
         ∧ update_shaped rest)
  ∧ event_method <$> trace (resourceArmFunctionAppDelete client helpers) d w
      `prefix_of` [MDelete].
Proof.
  split; [|split; [|split]].
  - eapply Read_order, Read_run.
  - eapply Update_order, Update_run.
  - destruct (Create_run d w); try (left; simpl; by eexists).
    right. eexists. split; [by rewrite fmap_app|]. by eapply Update_order.
  - destruct (Delete_run d w); simpl; by eexists.
Qed.

Lemma run_parts {A} (m : M A) d w :
  run m d w = (outcome m d w, final m d w, trace m d w).
Proof. unfold outcome, final, trace. by destruct (run m d w) as [[??]?]. Qed.

(** X7. When the stored id does not parse, Read, Update and Delete each
    return the parser's error as it is, without a remote call and without
    touching the resource data or the remote world. *)
Theorem unparsable_id_stops_before_any_call (d : ResourceData) (w : W) (e : error) :
  parseAzureResourceID helpers (Id d) = inr e →
  run (resourceArmFunctionAppRead client helpers) d w
  = (Err e, {| data := d; world := w |}, [])
  ∧ run (resourceArmFunctionAppUpdate client helpers) d w
    = (Err e, {| data := d; world := w |}, [])
  ∧ run (resourceArmFunctionAppDelete client helpers) d w
    = (Err e, {| data := d; world := w |}, []).
Proof.
  intros Hid. rewrite !run_parts.
  pose proof (Read_run d w) as HR.
  pose proof (Update_run d w) as HU.
  pose proof (Delete_run d w) as HD.
  split; [|split].
  - revert HR. generalize (outcome (resourceArmFunctionAppRead client helpers) d w)
      (final (resourceArmFunctionAppRead client helpers) d w)
      (trace (resourceArmFunctionAppRead client helpers) d w).
    intros r s t. destruct 1; congruence.
  - revert HU. generalize (outcome (resourceArmFunctionAppUpdate client helpers) d w)
      (final (resourceArmFunctionAppUpdate client helpers) d w)
      (trace (resourceArmFunctionAppUpdate client helpers) d w).
    intros r s t. destruct 1; congruence.
  - revert HD. generalize (outcome (resourceArmFunctionAppDelete client helpers) d w)
      (final (resourceArmFunctionAppDelete client helpers) d w)
      (trace (resourceArmFunctionAppDelete client helpers) d w).
    intros r s t. destruct 1; congruence.
Qed.

Lemma bind_ret_l {A B} (a : A) (f : A → M B) (s : St) :
  (ret a ≫= f) s = f a s.
Proof.
  unfold mbind, M_bind, bind, ret.
  by destruct (f a s) as [[??]?].
Qed.

Lemma bind_getData {B} (f : ResourceData → M B) (s : St) :
  (getData ≫= f) s = f (data s) s.
Proof.
  unfold mbind, M_bind, bind, getData.
  by destruct (f (data s) s) as [[??]?].
Qed.

(** X8. When neither app_settings, version, site_config nor
    connection_string changed, Update does exactly what Read does: the same
    outcome, the same final data and world, the same remote calls. *)
Theorem update_without_changes_is_read (d : ResourceData) (w : W) :
  HasChange app_settings d = false →
  HasChange version d = false →
  HasChange site_config d = false →
  HasChange connection_string d = false →
  run (resourceArmFunctionAppUpdate client helpers) d w
  = run (resourceArmFunctionAppRead client helpers) d w.
Proof.
  intros H1 H2 H3 H4.
  unfold run, resourceArmFunctionAppUpdate.
  rewrite bind_getData. simpl.
  rewrite H1, H2, H3, H4. simpl.
  destruct (parseAzureResourceID helpers (Id d)) as [id|e] eqn:Hid.
  - by rewrite !bind_ret_l.
  - unfold resourceArmFunctionAppRead. rewrite bind_getData. simpl. by rewrite Hid.
Qed.

Lemma Read_id d w :
  post (resourceArmFunctionAppRead client helpers) {| data := d; world := w |}
    (λ r s t,
       Id (data s) = Id d
       ∨ (r = Ok tt ∧ Id (data s) = ""
          ∧ ∃ resGroup n resp e,
              t = [EvGet resGroup n resp (Some e)]
              ∧ ResponseWasNotFound helpers (siteResponse resp) = true)).
Proof.
  unfold resourceArmFunctionAppRead.
  repeat wp_step.
  all: simplify_eq/=;
    first [ left; congruence
          | right; split; [done|]; split; [done|]; by eexists _, _, _, _ ].
Qed.

Lemma Update_id d w :
  post (resourceArmFunctionAppUpdate client helpers) {| data := d; world := w |}
    (λ r s t,
       Id (data s) = Id d
       ∨ (r = Ok tt ∧ Id (data s) = ""
          ∧ ∃ resGroup n resp e,
              last t = Some (EvGet resGroup n resp (Some e))
              ∧ ResponseWasNotFound helpers (siteResponse resp) = true)).
Proof.
  unfold resourceArmFunctionAppUpdate.
  do 3 wp_step; [|by left].
  repeat wp_step.
  all: try (eapply post_mono; [apply Read_id|];
            intros r' s' t' [HR|(Hr & Hs & resGroup & n & resp & e & -> & Hnf)];
            [by left|];
            right; split; [done|]; split; [done|];
            by exists resGroup, n, resp, e).
  all: by left.
Qed.

(** X9. Read and Update change the stored id in one way only: they empty
    it, and return no error, in a run whose last remote call is the get
    call of Read, failed with a not-found response (for Read it is then the
    only call); in every other run, failed or not, the id is the one they
    were given.  Delete never writes to the resource data and never ends in
    a nil dereference. *)
Theorem id_only_cleared_on_not_found (d : ResourceData) (w : W) :
  (Id (data (final (resourceArmFunctionAppRead client helpers) d w)) = Id d
   ∨ (outcome (resourceArmFunctionAppRead client helpers) d w = Ok tt
      ∧ Id (data (final (resourceArmFunctionAppRead client helpers) d w)) = ""
      ∧ ∃ resGroup n resp e,
          trace (resourceArmFunctionAppRead client helpers) d w
          = [EvGet resGroup n resp (Some e)]
          ∧ ResponseWasNotFound helpers (siteResponse resp) = true))
  ∧ (Id (data (final (resourceArmFunctionAppUpdate client helpers) d w)) = Id d
     ∨ (outcome (resourceArmFunctionAppUpdate client helpers) d w = Ok tt
        ∧ Id (data (final (resourceArmFunctionAppUpdate client helpers) d w)) = ""
        ∧ ∃ resGroup n resp e,
            last (trace (resourceArmFunctionAppUpdate client helpers) d w)
            = Some (EvGet resGroup n resp (Some e))
            ∧ ResponseWasNotFound helpers (siteResponse resp) = true))
  ∧ data (final (resourceArmFunctionAppDelete client helpers) d w) = d
  ∧ outcome (resourceArmFunctionAppDelete client helpers) d w ≠ Panic.
Proof.
  split; [apply Read_id|]. split; [apply Update_id|].
  split; by destruct (Delete_run d w).
Qed.

(** X10. A Create that returns no error went through its four calls
    successfully, was given a non-nil ID by its get call, and leaves that ID
    as the stored id, unless the get call of the final Read was answered
    not-found: then Create still returns no error, with an empty id. *)
Theorem create_success_sets_id (d : ResourceData) (w : W) :
  let s := final (resourceArmFunctionAppCreate client helpers) d w in
  let t := trace (resourceArmFunctionAppCreate client helpers) d w in
  outcome (resourceArmFunctionAppCreate client helpers) d w = Ok tt →
  ∃ available read readID,
    take 4 t
    = [EvCheckNameAvailability (availabilityRequest d) available None;
       EvCreateOrUpdate (resource_group_name (current d)) (name (current d))
         (createSiteEnvelope helpers d) None;
       EvWaitForCompletion None;
       EvGet (resource_group_name (current d)) (name (current d)) read None]
    ∧ NameAvailable available = Some true
    ∧ ID read = Some readID
    ∧ ((Id (data s) = readID ∧ ¬ failed MGet t) ∨ (Id (data s) = "" ∧ failed MGet t)).
Proof.
  intros s t. pose proof (Create_run d w) as HC. fold s t in HC.
  generalize dependent (outcome (resourceArmFunctionAppCreate client helpers) d w).
  clearbody s t. intros r HC ->.
  inversion HC as [| | | | | | |available read readID w4 r' s' tU Hav Hid HU]; subst.
  exists available, read, readID. split; [done|]. split; [done|]. split; [done|].
  inversion HU as [| | | |id w3 r' s' tR Hparse HR]; subst.
  inversion HR; subst;
    try (match goal with H : _ ∨ _ |- _ => by destruct H as [?|(?&?&?&?)] end).
  - right. split; [done|]. unfold_calls.
    destruct (appSettingsChanged _), (HasChange site_config _),
      (HasChange connection_string _); naive_solver.
  - left. split; [simpl in *; congruence|]. unfold_calls.
    destruct (appSettingsChanged _), (HasChange site_config _),
      (HasChange connection_string _); naive_solver.
Qed.

(** X11. When the get call of Create succeeds but its answer carries no ID,
    Create returns the error "Cannot read Function App ... ID", issues no
    further call, and leaves the resource data, the id included, as it was. *)
Theorem create_without_id_fails (d : ResourceData) (w : W) :
  let r := outcome (resourceArmFunctionAppCreate client helpers) d w in
  let s := final (resourceArmFunctionAppCreate client helpers) d w in
  let t := trace (resourceArmFunctionAppCreate client helpers) d w in
  ∀ resGroup n read,
    t !! 3 = Some (EvGet resGroup n read None) →
    ID read = None →
    r = Err (Errorf "Cannot read Function App %s (resource group %s) ID"
               [ArgString (name (current d));
                ArgString (resource_group_name (current d))])
    ∧ length t = 4
    ∧ data s = d.
Proof.
  intros r s t. pose proof (Create_run d w) as HC. fold r s t in HC. clearbody r s t.
  intros resGroup n read Ht Hid.
  destruct HC; by simplify_eq/=.
Qed.

(** X12. The create-or-update request of Create is addressed to the
    configured resource group and name and carries the kind "functionapp",
    the plan id, the enabled and client-affinity flags, the flags of the
    first site_config block, and as application settings exactly the five
    implicit ones.  It carries no https_only, and it is the same request
    whatever app_settings and https_only the configuration holds: the
    user's app_settings reach the API only through Update. *)
Theorem create_request_content (d : ResourceData) (w : W) :
  ∀ resGroup n siteEnvelope err,
    EvCreateOrUpdate resGroup n siteEnvelope err
      ∈ trace (resourceArmFunctionAppCreate client helpers) d w →
    resGroup = resource_group_name (current d)
    ∧ n = name (current d)
    ∧ Kind siteEnvelope = Some "functionapp"
    ∧ Location siteEnvelope = Some (azureRMNormalizeLocation helpers (location (current d)))
    ∧ (∃ props siteConfig,
         siteProperties siteEnvelope = Some props
         ∧ ServerFarmID props = Some (app_service_plan_id (current d))
         ∧ Enabled props = Some (enabled (current d))
         ∧ ClientAffinityEnabled props = Some (client_affinity_enabled (current d))
         ∧ HTTPSOnly props = None
         ∧ propsSiteConfig props = Some siteConfig
         ∧ AppSettings siteConfig = Some (getBasicFunctionAppAppSettings d)
         ∧ flattenFunctionAppSiteConfig (Some siteConfig)
           = [firstSiteConfigBlock (site_config (current d))])
    ∧ ∀ settings https,
        createSiteEnvelope helpers
          (with_current (set_app_settings settings) (with_current (set_https_only https) d))
        = siteEnvelope.
Proof.
  intros resGroup n siteEnvelope err Hev.
  assert (resGroup = resource_group_name (current d) ∧ n = name (current d)
          ∧ siteEnvelope = createSiteEnvelope helpers d) as (-> & -> & ->).
  { destruct (Create_run d w); elem_cases Hev; try done. absurd_method Hev. }
  split; [done|]. split; [done|]. split; [done|]. split; [done|]. split; [|done].
  eexists _, _. repeat (split; [reflexivity|]).
  unfold expandFunctionAppSiteConfig.
  by destruct (site_config (current d)) as [|[] ?].
Qed.

(** X13. Each targeted update call of Update is addressed to the resource
    group and site name parsed from the stored id.  The application-settings
    call carries the map of expandFunctionAppAppSettings, the
    connection-strings call the map of expandFunctionAppConnectionStrings,
    and the site-configuration call the flags of the first site_config block
    with no application settings in it. *)
Theorem update_request_content (d : ResourceData) (w : W) :
  ∀ ev,
    ev ∈ trace (resourceArmFunctionAppUpdate client helpers) d w →
    event_method ev ∈ update_methods →
    ∃ id,
      parseAzureResourceID helpers (Id d) = inl id
      ∧ match ev with
        | EvUpdateApplicationSettings resGroup n settings _ =>
            resGroup = ResourceGroup id ∧ n = at_key (Path id) "sites"
            ∧ expandFunctionAppAppSettings helpers d = Ok (sdProperties settings)
        | EvCreateOrUpdateConfiguration resGroup n siteConfigResource _ =>
            resGroup = ResourceGroup id ∧ n = at_key (Path id) "sites"
            ∧ ∃ siteConfig,
                resSiteConfig siteConfigResource = Some siteConfig
                ∧ AppSettings siteConfig = None
                ∧ flattenFunctionAppSiteConfig (Some siteConfig)
                  = [firstSiteConfigBlock (site_config (current d))]
        | EvUpdateConnectionStrings resGroup n properties _ =>
            resGroup = ResourceGroup id ∧ n = at_key (Path id) "sites"
            ∧ csdProperties properties = expandFunctionAppConnectionStrings d
        | _ => False
        end.
Proof.
  intros ev Hev Hm.
  assert (flattenFunctionAppSiteConfig (Some (expandFunctionAppSiteConfig d))
          = [firstSiteConfigBlock (site_config (current d))]) as Hflat.
  { unfold expandFunctionAppSiteConfig. by destruct (site_config (current d)) as [|[] ?]. }
  assert (AppSettings (expandFunctionAppSiteConfig d) = None) as Hnone.
  { unfold expandFunctionAppSiteConfig. by destruct (site_config (current d)). }
  destruct (Update_run d w); elem_cases Hev;
    try (absurd_method Hev; rewrite Hev in Hm; by elem_cases Hm);
    eexists; (split; [eassumption|]); repeat split; eauto.
  all: eexists; split; [reflexivity|]; split; [done|]; simpl; congruence.
Qed.

(** X14. When the schema writer rejects no key, the id parses, the four
    calls of Read succeed, no connection-string entry is nil and the remote
    site configuration, if there is one, has none of its three flags nil,
    Read returns no error and stores exactly this: name and resource group from
    the id; the normalised location if the site has one; the six site
    properties if the site has properties (a nil property as its zero
    value); storage_connection_string and version from the keys
    AzureWebJobsStorage and FUNCTIONS_EXTENSION_VERSION of the remote
    settings (the empty string when a key is missing); the remote settings
    less the five implicit keys; the flattened connection strings, site
    configuration and tags.  The id and the prior state are left as they
    were. *)
Theorem read_stores_remote_state (d : ResourceData) (w w1 w2 w3 w4 : W)
  (id : ResourceID) (resp : Site) (appSettingsResp : StringDictionary)
  (connectionStringsResp : ConnectionStringDictionary)
  (connectionStrings : list ConnectionStringBlock) (configResp : SiteConfigResource) :
  let resGroup := ResourceGroup id in
  let n := at_key (Path id) "sites" in
  let appSettings := flattenAppServiceAppSettings helpers (sdProperties appSettingsResp) in
  (∀ key, set_rejects helpers key = None) →
  parseAzureResourceID helpers (Id d) = inl id →
  Get client resGroup n w = (resp, None, w1) →
  ListApplicationSettings client resGroup n w1 = (appSettingsResp, None, w2) →
  ListConnectionStrings client resGroup n w2 = (connectionStringsResp, None, w3) →
  flattenFunctionAppConnectionStrings (csdProperties connectionStringsResp)
    = Ok connectionStrings →
  GetConfiguration client resGroup n w3 = (configResp, None, w4) →
  from_option completeSiteConfig True (resSiteConfig configResp) →
  let s := final (resourceArmFunctionAppRead client helpers) d w in
  let c := current (data s) in
  outcome (resourceArmFunctionAppRead client helpers) d w = Ok tt
  ∧ world s = w4
  ∧ Id (data s) = Id d
  ∧ prior (data s) = prior d
  ∧ name c = n
  ∧ resource_group_name c = resGroup
  ∧ location c
    = from_option (azureRMNormalizeLocation helpers) (location (current d)) (Location resp)
  ∧ match siteProperties resp with
    | Some props =>
        app_service_plan_id c = deref_or "" (ServerFarmID props)
        ∧ enabled c = deref_or false (Enabled props)
        ∧ default_hostname c = deref_or "" (DefaultHostName props)
        ∧ https_only c = deref_or false (HTTPSOnly props)
        ∧ outbound_ip_addresses c = deref_or "" (OutboundIPAddresses props)
        ∧ client_affinity_enabled c = deref_or false (ClientAffinityEnabled props)
    | None =>
        app_service_plan_id c = app_service_plan_id (current d)
        ∧ enabled c = enabled (current d)
        ∧ default_hostname c = default_hostname (current d)
        ∧ https_only c = https_only (current d)
        ∧ outbound_ip_addresses c = outbound_ip_addresses (current d)
        ∧ client_affinity_enabled c = client_affinity_enabled (current d)
    end
  ∧ storage_connection_string c = at_key appSettings "AzureWebJobsStorage"
  ∧ version c = at_key appSettings "FUNCTIONS_EXTENSION_VERSION"
  ∧ app_settings c = strippedAppSettings helpers (sdProperties appSettingsResp)
  ∧ connection_string c = connectionStrings
  ∧ site_config c = flattenFunctionAppSiteConfig (resSiteConfig configResp)
  ∧ tags c = flattenTags helpers (Tags resp).
Proof.
  intros resGroup n appSettings Hrej Hid HGet HApp HConn Hflat HConf _ s c.
  subst s c.
  change (post (resourceArmFunctionAppRead client helpers) {| data := d; world := w |}
            (λ r s _,
               let c := current (data s) in
               r = Ok tt ∧ world s = w4 ∧ Id (data s) = Id d ∧ prior (data s) = prior d
               ∧ name c = n ∧ resource_group_name c = resGroup
               ∧ location c
                 = from_option (azureRMNormalizeLocation helpers) (location (current d))
                     (Location resp)
               ∧ match siteProperties resp with
                 | Some props =>
                     app_service_plan_id c = deref_or "" (ServerFarmID props)
                     ∧ enabled c = deref_or false (Enabled props)
                     ∧ default_hostname c = deref_or "" (DefaultHostName props)
                     ∧ https_only c = deref_or false (HTTPSOnly props)
                     ∧ outbound_ip_addresses c = deref_or "" (OutboundIPAddresses props)
                     ∧ client_affinity_enabled c
                       = deref_or false (ClientAffinityEnabled props)
                 | None =>
                     app_service_plan_id c = app_service_plan_id (current d)
                     ∧ enabled c = enabled (current d)
                     ∧ default_hostname c = default_hostname (current d)
                     ∧ https_only c = https_only (current d)
                     ∧ outbound_ip_addresses c = outbound_ip_addresses (current d)
                     ∧ client_affinity_enabled c = client_affinity_enabled (current d)
                 end
               ∧ storage_connection_string c = at_key appSettings "AzureWebJobsStorage"
               ∧ version c = at_key appSettings "FUNCTIONS_EXTENSION_VERSION"
               ∧ app_settings c = strippedAppSettings helpers (sdProperties appSettingsResp)
               ∧ connection_string c = connectionStrings
               ∧ site_config c = flattenFunctionAppSiteConfig (resSiteConfig configResp)
               ∧ tags c = flattenTags helpers (Tags resp))).
  unfold resourceArmFunctionAppRead, flattenAndSetTags, dSetChecked.
  subst resGroup n.
  repeat
    (lazymatch goal with
     | |- post (_ ≫= _) _ _ => apply post_bind
     | |- post (ret _) _ _ => apply post_ret
     | |- post (fail _) _ _ => apply post_fail
     | |- post (lift _) _ _ => apply post_lift
     | |- post getData _ _ => apply post_getData
     | |- post (modifyData _) _ _ => apply post_modifyData
     | |- post (check _ _) _ _ => apply post_check
     | |- post (call _ _) _ _ =>
         apply post_call; intros [? ?] ? ?; cbn [world data] in *;
         repeat match goal with
         | H1 : ?x = _, H2 : ?x = _ |- _ => rewrite H1 in H2
         end; simplify_eq
     | |- post (dSet _ _ _) _ _ => apply post_dSet; rewrite Hrej
     | |- post (match ?x with _ => _ end) _ _ => destruct x eqn:?
     | |- match ?x with _ => _ end => destruct x eqn:?
     end; cbn beta iota zeta delta [fst snd app data world] in *;
     rewrite ?Hid, ?Hflat).
  all: repeat apply conj; simpl; reflexivity.
Qed.

(** X15. The code of Read itself dereferences a nil pointer in one
    situation only, the helpers it calls from the other files of the
    provider ([Helpers]) being taken to return: the id parsed, the get,
    list-application-settings and list-connection-strings calls succeeded,
    the schema writer took app_settings, and the connection-string map of
    the response holds a nil pair or a pair with a nil value.  In that
    situation Read never returns, with or without an error. *)
Theorem read_nil_dereference (d : ResourceData) (w : W) :
  outcome (resourceArmFunctionAppRead client helpers) d w = Panic
  ↔ ∃ id resp w1 appSettingsResp w2 connectionStringsResp w3,
      parseAzureResourceID helpers (Id d) = inl id
      ∧ Get client (ResourceGroup id) (at_key (Path id) "sites") w = (resp, None, w1)
      ∧ ListApplicationSettings client (ResourceGroup id) (at_key (Path id) "sites") w1
        = (appSettingsResp, None, w2)
      ∧ ListConnectionStrings client (ResourceGroup id) (at_key (Path id) "sites") w2
        = (connectionStringsResp, None, w3)
      ∧ set_rejects helpers "app_settings" = None
      ∧ ∃ k o, csdProperties connectionStringsResp !! k = Some o ∧ ¬ readable o.
Proof.
  change (post (resourceArmFunctionAppRead client helpers) {| data := d; world := w |}
            (λ r _ _,
               r = Panic
               ↔ ∃ id resp w1 appSettingsResp w2 connectionStringsResp w3,
                   parseAzureResourceID helpers (Id d) = inl id
                   ∧ Get client (ResourceGroup id) (at_key (Path id) "sites") w
                     = (resp, None, w1)
                   ∧ ListApplicationSettings client (ResourceGroup id)
                       (at_key (Path id) "sites") w1
                     = (appSettingsResp, None, w2)
                   ∧ ListConnectionStrings client (ResourceGroup id)
                       (at_key (Path id) "sites") w2
                     = (connectionStringsResp, None, w3)
                   ∧ set_rejects helpers "app_settings" = None
                   ∧ ∃ k o, csdProperties connectionStringsResp !! k = Some o
                            ∧ ¬ readable o)).
  unfold resourceArmFunctionAppRead.
  repeat wp_step.
  all: simplify_eq/=.
  all: split;
    [ try done
    | intros (id' & resp' & w1' & sd' & w2' & cs' & w3' & Hid' & HG & HA & HC & Hrej & Hex);
      simplify_eq;
      repeat (match goal with
              | H1 : ?x = _, H2 : ?x = _ |- _ => rewrite H1 in H2
              end; simplify_eq) ].
  all: try match goal with
       | H : flattenFunctionAppConnectionStrings ?m = _ |- _ =>
           destruct (flatten_cases m) as [[Hflat Hall]|[Hflat Hnil]];
           rewrite Hflat in H; simplify_eq
       end.
  all: try (destruct Hex as (k & o & Hk & Hnot); exfalso; by apply Hnot, (Hall k)).
  all: try (intros _; by eexists _, _, _, _, _, _, _).
  all: done.
Qed.

(** X16. Suppose the two helpers kept in the App Service file copy maps
    entry by entry: expandAppServiceAppSettings returns the user's
    app_settings, and flattenAppServiceAppSettings undoes the pointer
    wrapping.  Then reading back the very map Update sends recovers
    storage_connection_string and version from it, and the settings Read
    would store are the user's app_settings less the five implicit keys: a
    user entry under an implicit key is lost, every other entry survives. *)
Theorem sent_settings_read_back (d : ResourceData) :
  expandAppServiceAppSettings helpers d = Some <$> app_settings (current d) →
  (∀ m : gmap string string, flattenAppServiceAppSettings helpers (Some <$> m) = m) →
  ∀ sent,
    expandFunctionAppAppSettings helpers d = Ok sent →
    at_key (flattenAppServiceAppSettings helpers sent) "AzureWebJobsStorage"
    = storage_connection_string (current d)
    ∧ at_key (flattenAppServiceAppSettings helpers sent) "FUNCTIONS_EXTENSION_VERSION"
      = version (current d)
    ∧ ∀ k,
        strippedAppSettings helpers sent !! k
        = if decide (k ∈ implicit_keys) then None else app_settings (current d) !! k.
Proof.
  intros Hexpand Hflatten sent Hsent.
  rewrite expandFunctionAppAppSettings_total in Hsent. injection Hsent as <-.
  unfold strippedAppSettings, withImplicitSettings.
  rewrite Hexpand, <- !fmap_insert, Hflatten.
  split; [|split].
  - unfold at_key. by simplify_map_eq.
  - unfold at_key. by simplify_map_eq.
  - intros k. destruct (decide (k ∈ implicit_keys)) as [Hin|Hnotin].
    + unfold implicit_keys in Hin. elem_cases Hin; by simplify_map_eq.
    + unfold implicit_keys in Hnotin. rewrite !not_elem_of_cons in Hnotin.
      destruct Hnotin as (? & ? & ? & ? & ? & _).
      by rewrite !lookup_delete_ne, !lookup_insert_ne.
Qed.

Lemma Read_success_calls d w s t ev e :
  ReadOutcome client helpers d w (Ok tt) s t →
  ev ∈ t → event_error ev = Some e →
  ∃ resGroup n resp,
    ev = EvGet resGroup n resp (Some e)
    ∧ ResponseWasNotFound helpers (siteResponse resp) = true.
Proof.
  intros HR Hev He. inversion HR; subst; elem_cases Hev.
  by eexists _, _, _.
Qed.

Lemma Update_success_calls d w s t ev e :
  UpdateOutcome client helpers d w (Ok tt) s t →
  ev ∈ t → event_error ev = Some e →
  ∃ resGroup n resp,
    ev = EvGet resGroup n resp (Some e)
    ∧ ResponseWasNotFound helpers (siteResponse resp) = true.
Proof.
  intros HU Hev He. inversion HU; subst; elem_cases Hev.
  by eapply Read_success_calls.
Qed.

(** X17. No operation swallows a remote failure other than a not-found.
    When Read, Update or Create returns no error, every remote call it made
    succeeded, except possibly a get call of Read that was answered
    not-found; when Delete returns no error, its delete call succeeded or
    was answered not-found. *)
Theorem success_means_calls_succeeded (d : ResourceData) (w : W) :
  (∀ ev e,
     outcome (resourceArmFunctionAppRead client helpers) d w = Ok tt →
     ev ∈ trace (resourceArmFunctionAppRead client helpers) d w →
     event_error ev = Some e →
     ∃ resGroup n resp,
       ev = EvGet resGroup n resp (Some e)
       ∧ ResponseWasNotFound helpers (siteResponse resp) = true)
  ∧ (∀ ev e,
     outcome (resourceArmFunctionAppUpdate client helpers) d w = Ok tt →
     ev ∈ trace (resourceArmFunctionAppUpdate client helpers) d w →
     event_error ev = Some e →
     ∃ resGroup n resp,
       ev = EvGet resGroup n resp (Some e)
       ∧ ResponseWasNotFound helpers (siteResponse resp) = true)
  ∧ (∀ ev e,
     outcome (resourceArmFunctionAppCreate client helpers) d w = Ok tt →
     ev ∈ trace (resourceArmFunctionAppCreate client helpers) d w →
     event_error ev = Some e →
     ∃ resGroup n resp,
       ev = EvGet resGroup n resp (Some e)
       ∧ ResponseWasNotFound helpers (siteResponse resp) = true)
  ∧ (∀ ev e,
     outcome (resourceArmFunctionAppDelete client helpers) d w = Ok tt →
     ev ∈ trace (resourceArmFunctionAppDelete client helpers) d w →
     event_error ev = Some e →
     ∃ resGroup n resp,
       ev = EvDelete resGroup n (Some true) (Some false) resp (Some e)
       ∧ ResponseWasNotFound helpers resp = true).
Proof.
  split; [|split; [|split]]; intros ev e Hok.
  - pose proof (Read_run d w) as HR. rewrite Hok in HR. by eapply Read_success_calls.
  - pose proof (Update_run d w) as HU. rewrite Hok in HU. by eapply Update_success_calls.
  - pose proof (Create_run d w) as HC. rewrite Hok in HC.
    revert HC. generalize (final (resourceArmFunctionAppCreate client helpers) d w)
      (trace (resourceArmFunctionAppCreate client helpers) d w).
    intros s t HC Hev He. inversion HC; subst; elem_cases Hev.
    by eapply Update_success_calls.
  - pose proof (Delete_run d w) as HD. rewrite Hok in HD.
    revert HD. generalize (final (resourceArmFunctionAppDelete client helpers) d w)
      (trace (resourceArmFunctionAppDelete client helpers) d w).
    intros s t HD Hev He. inversion HD; subst; elem_cases Hev. by eexists _, _, _.
Qed.

(** X18. Create composes with Update: once the availability check has
    reported the name available, the create-or-update request and the wait
    have succeeded and the get call has answered with an ID, the rest of
    Create is a run of Update on the same configuration with that ID stored
    as the id, from the world the get call left; Create's outcome and final
    state are that run's, and its calls are the four calls followed by that
    run's calls. *)
Theorem create_ends_with_update (d : ResourceData) (w w1 w2 w3 w4 : W)
  (available : ResourceNameAvailability) (createFuture : Future) (read : Site)
  (readID : string) :
  let resGroup := resource_group_name (current d) in
  let n := name (current d) in
  CheckNameAvailability client (availabilityRequest d) w = (available, None, w1) →
  NameAvailable available = Some true →
  CreateOrUpdate client resGroup n (createSiteEnvelope helpers d) w1
    = (createFuture, None, w2) →
  WaitForCompletion client createFuture w2 = (None, w3) →
  Get client resGroup n w3 = (read, None, w4) →
  ID read = Some readID →
  outcome (resourceArmFunctionAppCreate client helpers) d w
  = outcome (resourceArmFunctionAppUpdate client helpers) (SetId readID d) w4
  ∧ final (resourceArmFunctionAppCreate client helpers) d w
    = final (resourceArmFunctionAppUpdate client helpers) (SetId readID d) w4
  ∧ trace (resourceArmFunctionAppCreate client helpers) d w
    = [EvCheckNameAvailability (availabilityRequest d) available None;
       EvCreateOrUpdate resGroup n (createSiteEnvelope helpers d) None;
       EvWaitForCompletion None;
       EvGet resGroup n read None]
      ++ trace (resourceArmFunctionAppUpdate client helpers) (SetId readID d) w4.
Proof.
  intros resGroup n HCheck Hav HCreate HWait HGet HID. subst resGroup n.
  change (post (resourceArmFunctionAppCreate client helpers) {| data := d; world := w |}
            (λ r s t,
               r = outcome (resourceArmFunctionAppUpdate client helpers) (SetId readID d) w4
               ∧ s = final (resourceArmFunctionAppUpdate client helpers) (SetId readID d) w4
               ∧ t = [EvCheckNameAvailability (availabilityRequest d) available None;
                      EvCreateOrUpdate (resource_group_name (current d)) (name (current d))
                        (createSiteEnvelope helpers d) None;
                      EvWaitForCompletion None;
                      EvGet (resource_group_name (current d)) (name (current d)) read None]
                     ++ trace (resourceArmFunctionAppUpdate client helpers)
                          (SetId readID d) w4)).
  unfold resourceArmFunctionAppCreate.
  repeat
    (lazymatch goal with
     | |- post (resourceArmFunctionAppUpdate _ _) _ _ => fail
     | |- post (_ ≫= _) _ _ => apply post_bind
     | |- post (ret _) _ _ => apply post_ret
     | |- post (fail _) _ _ => apply post_fail
     | |- post (lift _) _ _ => apply post_lift
     | |- post getData _ _ => apply post_getData
     | |- post (modifyData _) _ _ => apply post_modifyData
     | |- post (check _ _) _ _ => apply post_check
     | |- post (call _ _) _ _ =>
         apply post_call; intros ? ? ?; cbn [world data] in *;
         repeat match goal with
         | H1 : ?x = _, H2 : ?x = _ |- _ => rewrite H1 in H2
         end; simplify_eq
     | |- post (match ?x with _ => _ end) _ _ => destruct x eqn:?
     | |- match ?x with _ => _ end => destruct x eqn:?
     end; cbn beta iota zeta delta [fst snd app data world] in *;
     rewrite ?Hav, ?HID).
  by unfold post, outcome, final, trace, run.
Qed.
End Logic.

(** * The operations on concrete inputs *)

Ltac in_trace := vm_compute; solve [repeat constructor].

Lemma implicit_keys_sent_and_stripped_witness :
  has_implicit_keys (withImplicitSettings sampleHelpers allChanged)
  ∧ lacks_implicit_keys (app_settings (current (data (final sampleRead sampleData sampleWorld)))).
Proof.
  split.
  - apply (proj1 (implicit_keys_sent_and_stripped cannedClient sampleHelpers
                    allChanged sampleWorld)
             "group1" "app1" {| sdProperties := withImplicitSettings sampleHelpers allChanged |}
             None).
    in_trace.
  - destruct (proj2 (proj2 (implicit_keys_sent_and_stripped cannedClient sampleHelpers
                              sampleData sampleWorld)) eq_refl)
      as [[_ Hlacks]|[(? & ? & ? & ? & Htrace & _) _]].
    + exact Hlacks.
    + vm_compute in Htrace. discriminate Htrace.
Defined.


Lemma update_calls_follow_changes_witness :
  called MUpdateApplicationSettings (trace sampleUpdate versionBump sampleWorld).
Proof.
  apply (proj1 (update_calls_follow_changes cannedClient sampleHelpers versionBump sampleWorld)).
  split.
  - exists sampleResourceID. reflexivity.
  - right. reflexivity.
Defined.

Lemma update_stops_at_failed_call_witness :
  (∃ earlier,
     trace sampleUpdate allChanged failingConnectionStringsWorld
     = earlier ++ [connectionStringsCall allChanged sampleResourceID
                     (Some (ForeignError "Bad Request"))]
     ∧ Forall (λ ev', event_method ev' ∈ update_methods ∧ event_error ev' = None) earlier)
  ∧ (∃ e',
       outcome sampleUpdate allChanged failingConnectionStringsWorld = Err e'
       ∧ wrapped (update_context MUpdateConnectionStrings)
           (connectionStringsCall allChanged sampleResourceID
              (Some (ForeignError "Bad Request")))
           (ForeignError "Bad Request") e')
  ∧ data (final sampleUpdate allChanged failingConnectionStringsWorld) = allChanged.
Proof.
  apply (update_stops_at_failed_call cannedClient sampleHelpers allChanged
           failingConnectionStringsWorld
           (connectionStringsCall allChanged sampleResourceID
              (Some (ForeignError "Bad Request")))
           (ForeignError "Bad Request")).
  - in_trace.
  - in_trace.
  - reflexivity.
Defined.


Lemma delete_fixed_flags_and_not_found_witness :
  outcome sampleDelete sampleData goneWorld = Ok tt.
Proof.
  apply (proj1 (proj2 (proj2 (proj2
           (delete_fixed_flags_and_not_found cannedClient sampleHelpers sampleData goneWorld))))
           "group1" "app1" (Some true) (Some false)
           {| StatusCode := Some 404%Z |} (ForeignError "Not Found")).
  - in_trace.
  - reflexivity.
Defined.

Lemma connection_strings_round_trip_witness :
  NoDup (cs_name <$> connection_string (current allChanged))
  ∧ ∃ results,
      flattenFunctionAppConnectionStrings (expandFunctionAppConnectionStrings allChanged)
      = Ok results
      ∧ results ≡ₚ sampleConnectionStrings.
Proof.
  assert (NoDup (cs_name <$> connection_string (current allChanged))) as Hnd.
  { apply (bool_decide_unpack _). vm_compute. reflexivity. }
  split; [exact Hnd|].
  exact (proj1 (connection_strings_round_trip allChanged Hnd)).
Defined.

Lemma remote_failures_wrapped_or_returned_witness :
  wrapped (update_context MUpdateConnectionStrings)
    (connectionStringsCall allChanged sampleResourceID (Some (ForeignError "Bad Request")))
    (ForeignError "Bad Request")
    (Errorf "Error updating Connection Strings for App Service %q: %+v"
       [ArgString "app1"; ArgError (ForeignError "Bad Request")]).
Proof.
  apply (proj1 (proj2 (remote_failures_wrapped_or_returned cannedClient sampleHelpers
                         allChanged failingConnectionStringsWorld))
           (connectionStringsCall allChanged sampleResourceID
              (Some (ForeignError "Bad Request")))
           (ForeignError "Bad Request")).
  - in_trace.
  - reflexivity.
  - reflexivity.
Defined.

Lemma expandFunctionAppAppSettings_implicit_values_witness :
  ∃ output,
    expandFunctionAppAppSettings sampleHelpers allChanged = Ok output
    ∧ output !! "AzureWebJobsStorage" = Some (Some "storage1")
    ∧ output !! "k" = Some (Some "v2").
Proof.
  destruct (expandFunctionAppAppSettings_implicit_values sampleHelpers allChanged)
    as (output & Hout & _ & Hstorage & _ & _ & _ & Hother).
  exists output. split; [exact Hout|]. split; [exact Hstorage|].
  rewrite Hother.
  - vm_compute. reflexivity.
  - apply (bool_decide_unpack _). vm_compute. reflexivity.
Defined.

Lemma create_nil_dereference_iff_unpopulated_witness :
  outcome sampleCreate sampleData noAnswerWorld = Panic
  ∧ trace sampleCreate sampleData noAnswerWorld
    = [EvCheckNameAvailability (availabilityRequest sampleData) noAnswer.1 None].
Proof.
  apply (proj2 (create_nil_dereference_iff_unpopulated cannedClient sampleHelpers
                  sampleData noAnswerWorld (availabilityRequest sampleData) noAnswer.1
                  ltac:(in_trace))).
  unfold populated. simpl. tauto.
Defined.

(** C3 as stated fails: only [version] changed, app_settings did not, and
    Update still issues the application-settings update. *)
Lemma update_app_settings_call_for_version_only :
  ¬ (called MUpdateApplicationSettings (trace sampleUpdate versionBump sampleWorld)
     ↔ HasChange app_settings versionBump = true).
Proof.
  intros [Hcalled _].
  assert (HasChange app_settings versionBump = true) as Hchange.
  { apply Hcalled.
    exists (appSettingsCall sampleHelpers versionBump sampleResourceID None).
    split; [in_trace | reflexivity]. }
  vm_compute in Hchange. discriminate Hchange.
Qed.

(** C8 as stated fails: the refused create-or-update request reaches the
    caller of Create as the client returned it, with no context around it. *)
Lemma create_returns_refusal_unwrapped :
  failed MCreateOrUpdate (trace sampleCreate sampleData conflictWorld)
  ∧ outcome sampleCreate sampleData conflictWorld = Err (ForeignError "Conflict")
  ∧ ¬ ∃ format args,
        outcome sampleCreate sampleData conflictWorld = Err (Errorf format args).
Proof.
  split; [|split].
  - exists (EvCreateOrUpdate "group1" "app1" (createSiteEnvelope sampleHelpers sampleData)
              (Some (ForeignError "Conflict"))), (ForeignError "Conflict").
    split; [in_trace | split; reflexivity].
  - reflexivity.
  - intros (format & args & Hr). vm_compute in Hr. discriminate Hr.
Qed.



(** * The further properties on concrete inputs *)

Lemma site_config_round_trip_witness :
  flattenFunctionAppSiteConfig (Some (expandFunctionAppSiteConfig sampleData))
  = [{| always_on := None; use_32_bit_worker_process := None;
        websockets_enabled := None |}]
  ∧ flattenFunctionAppSiteConfig (Some (expandFunctionAppSiteConfig allChanged))
    = [{| always_on := Some true; use_32_bit_worker_process := Some false;
          websockets_enabled := Some false |}]
  ∧ expandFunctionAppSiteConfig allChanged
    = {| AppSettings := None; AlwaysOn := Some true;
         Use32BitWorkerProcess := Some false; WebSocketsEnabled := Some false |}.
Proof.
  destruct site_config_round_trip as (Hempty & Hfirst & Hback & _).
  split; [|split].
  - apply (Hempty sampleData). reflexivity.
  - apply (Hfirst allChanged _ []); [reflexivity|].
    unfold completeBlock. simpl. repeat split; eexists; reflexivity.
  - apply (Hback allChanged
             {| AppSettings := Some []; AlwaysOn := Some true;
                Use32BitWorkerProcess := Some false; WebSocketsEnabled := Some false |});
      [|reflexivity].
    unfold completeSiteConfig. simpl. repeat split; eexists; reflexivity.
Defined.

Lemma flatten_connection_strings_outcome_witness :
  flattenFunctionAppConnectionStrings brokenConnectionStrings = Panic.
Proof.
  apply (proj1 (flatten_connection_strings_outcome brokenConnectionStrings)).
  exists "db", (Some {| pairValue := None; pairType := "SQLAzure" |}).
  split; [reflexivity|].
  intros (v & value & Hv & Hvalue). injection Hv as <-. discriminate Hvalue.
Defined.

Lemma connection_strings_expand_flatten_witness :
  ∃ results,
    flattenFunctionAppConnectionStrings remoteConnectionStrings = Ok results
    ∧ ∀ d : ResourceData,
        connection_string (current d) = results →
        expandFunctionAppConnectionStrings d = remoteConnectionStrings.
Proof.
  apply (connection_strings_expand_flatten remoteConnectionStrings).
  intros k o Hk. apply elem_of_map_to_list in Hk.
  vm_compute in Hk.
  apply elem_of_cons in Hk as [Hk|Hk]; [injection Hk as -> ->; by eexists _, _|].
  apply elem_of_cons in Hk as [Hk|Hk]; [injection Hk as -> ->; by eexists _, _|].
  by apply elem_of_nil in Hk.
Defined.

Lemma unparsable_id_stops_before_any_call_witness :
  run sampleRead unparsableData sampleWorld
  = (Err (ForeignError "cannot parse the resource id"),
     {| data := unparsableData; world := sampleWorld |}, []).
Proof.
  apply (proj1 (unparsable_id_stops_before_any_call cannedClient sampleHelpers
                  unparsableData sampleWorld
                  (ForeignError "cannot parse the resource id") eq_refl)).
Defined.

Lemma update_without_changes_is_read_witness :
  run sampleUpdate sampleData sampleWorld = run sampleRead sampleData sampleWorld.
Proof.
  apply (update_without_changes_is_read cannedClient sampleHelpers sampleData sampleWorld);
    reflexivity.
Defined.

Lemma create_success_sets_id_witness :
  ∃ available read readID,
    take 4 (trace sampleCreate sampleData sampleWorld)
    = [EvCheckNameAvailability (availabilityRequest sampleData) available None;
       EvCreateOrUpdate "group1" "app1" (createSiteEnvelope sampleHelpers sampleData) None;
       EvWaitForCompletion None;
       EvGet "group1" "app1" read None]
    ∧ NameAvailable available = Some true
    ∧ ID read = Some readID
    ∧ ((Id (data (final sampleCreate sampleData sampleWorld)) = readID
        ∧ ¬ failed MGet (trace sampleCreate sampleData sampleWorld))
       ∨ (Id (data (final sampleCreate sampleData sampleWorld)) = ""
          ∧ failed MGet (trace sampleCreate sampleData sampleWorld))).
Proof.
  apply (create_success_sets_id cannedClient sampleHelpers sampleData sampleWorld).
  reflexivity.
Defined.

Lemma create_without_id_fails_witness :
  outcome sampleCreate sampleData noIdWorld
  = Err (Errorf "Cannot read Function App %s (resource group %s) ID"
           [ArgString "app1"; ArgString "group1"])
  ∧ length (trace sampleCreate sampleData noIdWorld) = 4
  ∧ data (final sampleCreate sampleData noIdWorld) = sampleData.
Proof.
  apply (create_without_id_fails cannedClient sampleHelpers sampleData noIdWorld
           "group1" "app1" siteWithoutId);
    reflexivity.
Defined.

Lemma create_request_content_witness :
  createSiteEnvelope sampleHelpers
    (with_current (set_app_settings ∅) (with_current (set_https_only true) allChanged))
  = createSiteEnvelope sampleHelpers allChanged.
Proof.
  apply (create_request_content cannedClient sampleHelpers allChanged sampleWorld
           "group1" "app1" (createSiteEnvelope sampleHelpers allChanged) None).
  in_trace.
Defined.

Lemma update_request_content_witness :
  ∃ id,
    parseAzureResourceID sampleHelpers (Id allChanged) = inl id
    ∧ "group1" = ResourceGroup id ∧ "app1" = at_key (Path id) "sites"
    ∧ expandFunctionAppConnectionStrings allChanged
      = expandFunctionAppConnectionStrings allChanged.
Proof.
  apply (update_request_content cannedClient sampleHelpers allChanged sampleWorld
           (EvUpdateConnectionStrings "group1" "app1"
              {| csdProperties := expandFunctionAppConnectionStrings allChanged |} None)).
  - in_trace.
  - in_trace.
Defined.

Lemma read_stores_remote_state_witness :
  outcome sampleRead versionBump sampleWorld = Ok tt
  ∧ version (current (data (final sampleRead versionBump sampleWorld))) = "~1"
  ∧ storage_connection_string (current (data (final sampleRead versionBump sampleWorld)))
    = "storage1".
Proof.
  destruct (read_stores_remote_state cannedClient sampleHelpers versionBump
              sampleWorld sampleWorld sampleWorld sampleWorld sampleWorld
              sampleResourceID sampleSite (cannedAppSettings sampleWorld).1
              (cannedConnectionStrings sampleWorld).1 []
              (cannedConfiguration sampleWorld).1
              (λ _, eq_refl) eq_refl eq_refl eq_refl eq_refl eq_refl eq_refl I)
    as (Hok & _ & _ & _ & _ & _ & _ & _ & Hstorage & Hversion & _).
  unfold sampleRead. split; [exact Hok|]. split.
  - rewrite Hversion. vm_compute. reflexivity.
  - rewrite Hstorage. vm_compute. reflexivity.
Defined.

Lemma read_nil_dereference_witness :
  outcome sampleRead sampleData nilEntryWorld = Panic.
Proof.
  apply (proj2 (read_nil_dereference cannedClient sampleHelpers sampleData nilEntryWorld)).
  exists sampleResourceID, sampleSite, nilEntryWorld, {| sdProperties := ∅ |},
    nilEntryWorld, {| csdProperties := brokenConnectionStrings |}, nilEntryWorld.
  repeat (split; [reflexivity|]).
  exists "db", (Some {| pairValue := None; pairType := "SQLAzure" |}).
  split; [reflexivity|].
  intros (v & value & Hv & Hvalue). injection Hv as <-. discriminate Hvalue.
Defined.

Lemma sent_settings_read_back_witness :
  ∃ sent,
    expandFunctionAppAppSettings sampleHelpers allChanged = Ok sent
    ∧ strippedAppSettings sampleHelpers sent !! "AzureWebJobsStorage" = None
    ∧ strippedAppSettings sampleHelpers sent !! "k" = Some "v2".
Proof.
  exists (withImplicitSettings sampleHelpers allChanged).
  split; [reflexivity|].
  assert (∀ m : gmap string string,
            flattenAppServiceAppSettings sampleHelpers (Some <$> m) = m) as Hflatten.
  { intros m. apply map_eq. intros k. simpl.
    rewrite !lookup_fmap. by destruct (m !! k). }
  destruct (sent_settings_read_back sampleHelpers allChanged eq_refl Hflatten
              (withImplicitSettings sampleHelpers allChanged) eq_refl)
    as (_ & _ & Hback).
  split.
  - rewrite Hback. reflexivity.
  - rewrite Hback. vm_compute. reflexivity.
Defined.

Lemma success_means_calls_succeeded_witness :
  ∃ resGroup n resp,
    EvGet "group1" "app1" notFoundSite (Some (ForeignError "Not Found"))
    = EvGet resGroup n resp (Some (ForeignError "Not Found"))
    ∧ ResponseWasNotFound sampleHelpers (siteResponse resp) = true.
Proof.
  apply (proj1 (success_means_calls_succeeded cannedClient sampleHelpers
                  sampleData goneWorld)).
  - reflexivity.
  - in_trace.
  - reflexivity.
Defined.

Lemma create_ends_with_update_witness :
  outcome sampleCreate allChanged sampleWorld
  = outcome sampleUpdate (SetId sampleId allChanged) sampleWorld
  ∧ final sampleCreate allChanged sampleWorld
    = final sampleUpdate (SetId sampleId allChanged) sampleWorld
  ∧ trace sampleCreate allChanged sampleWorld
    = [EvCheckNameAvailability (availabilityRequest allChanged) nameAvailable.1 None;
       EvCreateOrUpdate "group1" "app1" (createSiteEnvelope sampleHelpers allChanged) None;
       EvWaitForCompletion None;
       EvGet "group1" "app1" sampleSite None]
      ++ trace sampleUpdate (SetId sampleId allChanged) sampleWorld.
Proof.
  apply (create_ends_with_update cannedClient sampleHelpers allChanged
           sampleWorld sampleWorld sampleWorld sampleWorld sampleWorld
           nameAvailable.1 tt sampleSite sampleId);
    reflexivity.
Defined.

Lemma expand_connection_strings_last_wins_witness :
  expandFunctionAppConnectionStrings repeatedNames !! "db"
  = Some (Some {| pairValue := Some "Server=new"; pairType := "MySQL" |}).
Proof.
  rewrite (expand_connection_strings_last_wins repeatedNames "db").
  vm_compute. reflexivity.
Defined.

Lemma connection_strings_flatten_expand_any_witness :
  ∃ results,
    flattenFunctionAppConnectionStrings (expandFunctionAppConnectionStrings repeatedNames)
    = Ok results
    ∧ {| cs_name := "db"; cs_type := "MySQL"; cs_value := "Server=new" |} ∈ results.
Proof.
  destruct (connection_strings_flatten_expand_any repeatedNames)
    as (results & Hok & _ & Hin).
  exists results. split; [exact Hok|].
  apply Hin. vm_compute. reflexivity.
Defined.
